(** * Velvet datatypes: sniffers and composite dataset

    A shallow embedding of [lib/galaxy/datatypes/assembly.py]: the three
    sniffers [Amos.sniff_prefix], [Sequences.sniff_prefix] and
    [Roadmaps.sniff_prefix], and the [Velvet] composite datatype with
    [generate_primary_file] and [regenerate_primary_file].

    Python [str] values are sequences of Unicode code points; the regular
    expressions of the module are embedded as values of a small pattern type
    and run by a backtracking matcher that follows the priorities of
    Python's [re] (first alternative first, greedy repetition). *)

From Stdlib Require Import List NArith Bool Arith Lia String Ascii.
Import ListNotations.
Local Open Scope N_scope.

Set Implicit Arguments.

(** ** Text *)

(** A code point. *)
Definition char := N.

(** A Python [str]. *)
Definition text := list char.

Definition TAB : char := 9.
Definition LF : char := 10.
Definition SP : char := 32.
Definition DQ : char := 34.

(** A literal, written as in the Python source: [\t] and [\n] are the two
    escapes the module's inputs need; every other character stands for
    itself. *)
Fixpoint py (s : string) : text :=
  match s with
  | EmptyString => []
  | String c s' =>
      match c, s' with
      | "\"%char, String "t"%char s'' => TAB :: py s''
      | "\"%char, String "n"%char s'' => LF :: py s''
      | _, _ => N_of_ascii c :: py s'
      end
  end.

Definition char_eqb (a b : char) : bool := N.eqb a b.

Fixpoint text_eqb (a b : text) : bool :=
  match a, b with
  | [], [] => true
  | x :: a', y :: b' => char_eqb x y && text_eqb a' b'
  | _, _ => false
  end.

(** [bool(s)] of a string: non-empty. *)
Definition nonempty (s : text) : bool :=
  match s with [] => false | _ :: _ => true end.

(** [s.startswith(p)]. *)
Fixpoint startswith (s p : text) : bool :=
  match p, s with
  | [], _ => true
  | _ :: _, [] => false
  | x :: p', y :: s' => char_eqb x y && startswith s' p'
  end.

(** [sep.join(parts)]. *)
Fixpoint join (sep : text) (parts : list text) : text :=
  match parts with
  | [] => []
  | [p] => p
  | p :: rest => p ++ sep ++ join sep rest
  end.

(** The character classes of the interpreter's Unicode database.  On ASCII
    they are fixed; above it the tables follow the Unicode version of the
    interpreter and are taken as they come. *)
Record UnicodeData : Type := {
  space_above_ascii : char -> bool;
  decimal_above_ascii : char -> bool
}.

(** ** Regular expressions

    The patterns of the module repeat single-character sets only ([\d+],
    [\S*], [.*], [[^\t]+]); groups are alternatives or optional. *)
Inductive regex : Type :=
| Eps
| Chr (c : char)
| Cls (p : char -> bool)
| Seq (r1 r2 : regex)
| Alt (r1 r2 : regex)
| Opt (r : regex)
| Star (p : char -> bool)
| Plus (p : char -> bool)
| Eol.

(** A literal run of characters. *)
Fixpoint Str (s : text) : regex :=
  match s with
  | [] => Eps
  | [c] => Chr c
  | c :: s' => Seq (Chr c) (Str s')
  end.

Section Matcher.
Variable A : Type.

(** Greedy repetition of a character set: the longest run first, giving
    characters back one at a time while the continuation fails. *)
Fixpoint star_cls (p : char -> bool) (s : text) (k : text -> option A) : option A :=
  match s with
  | c :: s' =>
      if p c
      then match star_cls p s' k with
           | Some a => Some a
           | None => k s
           end
      else k s
  | [] => k s
  end.

(** The backtracking matcher: [bt r s k] matches [r] at the head of [s] and
    hands what is left to [k]. *)
Fixpoint bt (r : regex) (s : text) (k : text -> option A) : option A :=
  match r with
  | Eps => k s
  | Chr c =>
      match s with
      | x :: s' => if char_eqb x c then k s' else None
      | [] => None
      end
  | Cls p =>
      match s with
      | x :: s' => if p x then k s' else None
      | [] => None
      end
  | Seq r1 r2 => bt r1 s (fun s' => bt r2 s' k)
  | Alt r1 r2 =>
      match bt r1 s k with
      | Some a => Some a
      | None => bt r2 s k
      end
  | Opt r1 =>
      match bt r1 s k with
      | Some a => Some a
      | None => k s
      end
  | Star p => star_cls p s k
  | Plus p =>
      match s with
      | x :: s' => if p x then star_cls p s' k else None
      | [] => None
      end
  | Eol =>
      match s with
      | [] => k s
      | [x] => if char_eqb x LF then k s else None
      | _ => None
      end
  end.

End Matcher.

(** What is left of [s] after the match of [r] at its head. *)
Definition match_at (r : regex) (s : text) : option text :=
  bt r s (fun rest => Some rest).

(** [re.match(r, s)], as a truth value. *)
Definition re_match (r : regex) (s : text) : bool :=
  match match_at r s with Some _ => true | None => false end.

(** [re.search(r, s) is not None]. *)
Fixpoint re_search (r : regex) (s : text) : bool :=
  match match_at r s with
  | Some _ => true
  | None =>
      match s with
      | [] => false
      | _ :: s' => re_search r s'
      end
  end.

(** The number of characters of the match of [r] at the head of [s]. *)
Definition match_len (r : regex) (s : text) : option nat :=
  match match_at r s with
  | Some rest => Some (List.length s - List.length rest)%nat
  | None => None
  end.

(** [re.sub(r, repl, s)] for a pattern that matches no empty text (as all
    three substituted patterns of the module: see [no_empty_match] below):
    left to right, each match replaced, the search resuming after it.
    [skip] counts the characters of the current match still to drop. *)
Fixpoint sub_from (r : regex) (repl : text) (skip : nat) (s : text) : text :=
  match s with
  | [] => []
  | c :: s' =>
      match skip with
      | S n => sub_from r repl n s'
      | O =>
          match match_len r s with
          | Some (S n) => repl ++ sub_from r repl n s'
          | _ => c :: sub_from r repl O s'
          end
      end
  end.

Definition re_sub (r : regex) (repl : text) (s : text) : text :=
  sub_from r repl O s.

(** ** The Velvet composite datatype *)

(** The Python values the datatype stores in its records. *)
Inductive pyval : Type :=
| PyNone
| PyBool (b : bool)
| PyStr (s : text).

(** Truth value of a Python value, as [if v:] tests it. *)
Definition truthy (v : pyval) : bool :=
  match v with
  | PyNone => false
  | PyBool b => b
  | PyStr s => nonempty s
  end.

(** [str(v)], as an f-string formats it. *)
Definition str_of (v : pyval) : text :=
  match v with
  | PyNone => py "None"
  | PyBool true => py "True"
  | PyBool false => py "False"
  | PyStr s => s
  end.

(** The description of one composite file. *)
Record Bunch : Type := {
  optional : pyval;
  mimetype : pyval;
  description : pyval;
  substitute_name_with_metadata : pyval;
  is_binary : pyval
}.

(** A [dict] keyed by file name, in insertion order. *)
Definition odict : Type := list (text * Bunch).

Fixpoint dict_set (d : odict) (k : text) (v : Bunch) : odict :=
  match d with
  | [] => [(k, v)]
  | (k', v') :: d' =>
      if text_eqb k' k then (k, v) :: d' else (k', v') :: dict_set d' k v
  end.

(** Modelled from the spec: the host's [add_composite_file], which declares
    one more sub-file of the ordered collection ("insertion order preserved
    for display"); a sub-file is required unless declared optional. *)
Definition add_composite_file (self : odict) (name : text)
    (optional mimetype description substitute_name_with_metadata is_binary : pyval) : odict :=
  dict_set self name
    {| optional := optional; mimetype := mimetype; description := description;
       substitute_name_with_metadata := substitute_name_with_metadata;
       is_binary := is_binary |}.

(** Modelled from the spec: the host's [get_composite_files], the declared
    sub-files in declaration order (no sub-file of this datatype takes its
    name from the metadata). *)
Definition get_composite_files (self : odict) : odict := self.

(** [Velvet.__init__]: the three declared sub-files. *)
Definition Velvet_init : odict :=
  let self := [] in
  let self := add_composite_file self (py "Sequences")
                (PyBool false) (PyStr (py "text/html")) (PyStr (py "Sequences"))
                PyNone (PyBool false) in
  let self := add_composite_file self (py "Roadmaps")
                (PyBool false) (PyStr (py "text/html")) (PyStr (py "Roadmaps"))
                PyNone (PyBool false) in
  let self := add_composite_file self (py "Log")
                (PyStr (py "True")) (PyStr (py "text/html")) (PyStr (py "Log"))
                PyNone (PyBool false) in
  self.

(** One [<li>] of a manifest: the body of both loops over the composite
    files. *)
Definition list_item (fn : text) (composite_file : Bunch) : text :=
  let opt_text := if truthy (optional composite_file) then py " (optional)" else [] in
  if truthy (description composite_file) then
    py "<li><a href=" ++ [DQ] ++ fn ++ [DQ] ++ py " type=" ++ [DQ] ++ py "text/plain" ++ [DQ]
      ++ py ">" ++ fn ++ py " (" ++ str_of (description composite_file) ++ py ")</a>"
      ++ opt_text ++ py "</li>"
  else
    py "<li><a href=" ++ [DQ] ++ fn ++ [DQ] ++ py " type=" ++ [DQ] ++ py "text/plain" ++ [DQ]
      ++ py ">" ++ fn ++ py "</a>" ++ opt_text ++ py "</li>".

Definition html_head : text :=
  py "<html><head><title>Velvet Galaxy Composite Dataset </title></head><p/>".

Definition html_foot : text := py "</ul></div></html>".


(** The metadata elements [regenerate_primary_file] assigns. *)
Record Metadata : Type := {
  paired_end_reads : pyval;
  long_reads : pyval;
  short2_reads : pyval
}.

(** The host's dataset, as far as the datatype uses it.  Reading the
    property [extra_files_path] may fail ([None]). *)
Record DatasetInstance : Type := {
  extra_files_path : option text;
  file_name : text;
  metadata : Metadata;
  info : pyval
}.

(** What [open(path)] hands over for reading: the text of the file, or a
    file whose reading raises. *)
Inductive file : Type :=
| Readable (content : text)
| Unreadable.

(** A file of the file system, whatever path leads to it. *)
Definition node : Type := nat.

(** The file system.  [resolve] is the file a path leads to: two spellings
    of one path lead to one file, and a path through a missing directory
    leads nowhere.  [stored] is the text in a file, where there is one;
    [readable] and [writable] tell whether the file can be read and whether
    opening it for writing succeeds. *)
Record fs : Type := {
  resolve : text -> option node;
  stored : node -> option text;
  readable : node -> bool;
  writable : node -> bool
}.

(** The files after [content] was written to the file [f]. *)
Definition fs_write (files : fs) (f : node) (content : text) : fs :=
  {| resolve := resolve files;
     stored := fun n => if Nat.eqb n f then Some content else stored files n;
     readable := readable files;
     writable := writable files |}.

(** Exceptions and results. *)
Inductive exn : Type :=
| PropertyError
| FileNotFoundError
| ReadError
| PermissionError
| UnboundLocalError.

Inductive result (A : Type) : Type :=
| Ok (a : A)
| Raise (e : exn).
Arguments Raise {A} e.

Definition bind {A B : Type} (m : result A) (f : A -> result B) : result B :=
  match m with
  | Ok a => f a
  | Raise e => Raise e
  end.

Notation "x <- m ;;; f" := (bind m (fun x => f))
  (at level 100, m at next level, right associativity).

(** [os.path.join(a, b)] for a relative [b]. *)
Definition os_path_join (a b : text) : text :=
  if negb (nonempty a) || char_eqb (last a 0) (N_of_ascii "/") then a ++ b
  else a ++ py "/" ++ b.

Definition get_extra_files_path (dataset : DatasetInstance) : result text :=
  match extra_files_path dataset with
  | Some efp => Ok efp
  | None => Raise PropertyError
  end.

(** [open(path)] and [f.read(n)]. *)
Definition open_r (files : fs) (path : text) : result file :=
  match resolve files path with
  | None => Raise FileNotFoundError
  | Some f =>
      match stored files f with
      | None => Raise FileNotFoundError
      | Some content => if readable files f then Ok (Readable content) else Ok Unreadable
      end
  end.

Definition read (f : file) (n : nat) : result text :=
  match f with
  | Readable content => Ok (firstn n content)
  | Unreadable => Raise ReadError
  end.

(** [open(path, "w")]: the file to write to, created or emptied. *)
Definition open_w (files : fs) (path : text) : result node :=
  match resolve files path with
  | None => Raise FileNotFoundError
  | Some f => if writable files f then Ok f else Raise PermissionError
  end.

(** How a call ends. *)
Inductive outcome : Type :=
| Returned
| Raised (e : exn).

(** What a call leaves behind: the files, the dataset, on which the
    assignments made before an exception stay, and how the call ended. *)
Record run : Type := {
  files_after : fs;
  dataset_after : DatasetInstance;
  ended : outcome
}.

(** ** Character classes *)

Section Unicode.

Variable ucd : UnicodeData.

(** [c.isspace()], also [\s] of [re] on [str] patterns. *)
Definition isspace (c : char) : bool :=
  if c <? 128
  then ((9 <=? c) && (c <=? 13)) || ((28 <=? c) && (c <=? 32))
  else space_above_ascii ucd c.

(** [c.isdecimal()], which is [\d] of [re] on [str] patterns. *)
Definition isdecimal (c : char) : bool :=
  if c <? 128
  then (48 <=? c) && (c <=? 57)
  else decimal_above_ascii ucd c.

Fixpoint lstrip (s : text) : text :=
  match s with
  | [] => []
  | c :: s' => if isspace c then lstrip s' else s
  end.

Definition rstrip (s : text) : text := rev (lstrip (rev s)).

(** [s.strip()]. *)
Definition strip (s : text) : text := rstrip (lstrip s).

(** [\d], [\S], [.] and [[^\t]]. *)
Definition digit : char -> bool := isdecimal.
Definition nonspace (c : char) : bool := negb (isspace c).
Definition dot (c : char) : bool := negb (char_eqb c LF).
Definition nontab (c : char) : bool := negb (char_eqb c TAB).

(** ** The sniffers *)

Declare Scope re_scope.
Delimit Scope re_scope with re.
Notation "r1 ;; r2" := (Seq r1 r2) (at level 61, right associativity) : re_scope.
Notation "r1 <|> r2" := (Alt r1 r2) (at level 62, right associativity) : re_scope.

(** [{(RED|CTG|TLE)$] *)
Definition Amos_re : regex :=
  (Str (py "{") ;; (Str (py "RED") <|> Str (py "CTG") <|> Str (py "TLE")) ;; Eol)%re.

(** [>[^\t]+\t\d+\t\d+$] *)
Definition Sequences_re : regex :=
  (Str (py ">") ;; Plus nontab ;; Chr TAB ;; Plus digit ;; Chr TAB ;; Plus digit ;; Eol)%re.

(** [\d+\t\d+\t\d+$] *)
Definition Roadmaps_re : regex :=
  (Plus digit ;; Chr TAB ;; Plus digit ;; Chr TAB ;; Plus digit ;; Eol)%re.

(** [ROADMAP \d+$] *)
Definition ROADMAP_re : regex :=
  (Str (py "ROADMAP ") ;; Plus digit ;; Eol)%re.

(** Modelled from the spec: the host's [FilePrefix], a bounded, read-only
    view over the leading portion of a file, exposing line-by-line and
    whole-text iteration.  [line_iterator] is the sequence of lines the
    iterator yields, [string_io] the text behind the [StringIO] object. *)
Record FilePrefix : Type := {
  line_iterator : list text;
  string_io : text
}.

(** The lines of a [StringIO] over [s], each with its ['\n'] when it has
    one: what successive [readline()] calls return before [''] . *)
Fixpoint readlines (s : text) : list text :=
  match s with
  | [] => []
  | c :: s' =>
      if char_eqb c LF then [c] :: readlines s'
      else match readlines s' with
           | [] => [[c]]
           | l :: ls => (c :: l) :: ls
           end
  end.

(** [fh.readline()] on the lines still to read: the next line, or [''] at
    the end of the text. *)
Definition readline (fh : list text) : text * list text :=
  match fh with
  | [] => ([], [])
  | l :: fh' => (l, fh')
  end.

(** The loop of [Amos.sniff_prefix] over the lines of the iterator. *)
Fixpoint Amos_for (lines : list text) : bool :=
  match lines with
  | [] => false
  | line :: lines' =>
      if negb (nonempty line) then false
      else
        let line := strip line in
        if nonempty line then
          if startswith line (py "{") then
            if re_match Amos_re line then true
            else Amos_for lines'
          else Amos_for lines'
        else Amos_for lines'
  end.

Definition Amos_sniff_prefix (file_prefix : FilePrefix) : bool :=
  Amos_for (line_iterator file_prefix).

(** The loop of [Sequences.sniff_prefix] over the lines of [fh]. *)
Fixpoint Sequences_for (fh : list text) : bool :=
  match fh with
  | [] => false
  | line :: fh' =>
      let line := strip line in
      if nonempty line then
        if startswith line (py ">") then
          if negb (re_match Sequences_re line) then false
          else
            let line := strip (fst (readline fh')) in
            if text_eqb line [] || startswith line (py ">") then false
            else true
        else false
      else Sequences_for fh'
  end.

Definition Sequences_sniff_prefix (file_prefix : FilePrefix) : bool :=
  Sequences_for (readlines (string_io file_prefix)).

(** The loop of [Roadmaps.sniff_prefix]: every path of its body returns, so
    it runs on the first line of [fh] only. *)
Definition Roadmaps_for (fh : list text) : bool :=
  match fh with
  | [] => false
  | line :: fh' =>
      let line := strip line in
      if nonempty line then
        if negb (re_match Roadmaps_re line) then false
        else
          let line := strip (fst (readline fh')) in
          re_match ROADMAP_re line
      else false
  end.

Definition Roadmaps_sniff_prefix (file_prefix : FilePrefix) : bool :=
  Roadmaps_for (readlines (string_io file_prefix)).

(** The patterns of [regenerate_primary_file]: [/\S*/], [-(short|long)Paired],
    [-long], [-short(Paired)?2], [\n], [.*velveth \S+] and [Log]. *)
Definition path_re : regex := (Str (py "/") ;; Star nonspace ;; Str (py "/"))%re.
Definition paired_re : regex :=
  (Str (py "-") ;; (Str (py "short") <|> Str (py "long")) ;; Str (py "Paired"))%re.
Definition long_re : regex := Str (py "-long").
Definition short2_re : regex :=
  (Str (py "-short") ;; Opt (Str (py "Paired")) ;; Str (py "2"))%re.
Definition newline_re : regex := Chr LF.
Definition velveth_re : regex := (Star dot ;; Str (py "velveth ") ;; Plus nonspace)%re.
Definition Log_re : regex := Str (py "Log").

(** ** Regenerating the primary file *)

(** What the log says: the three flags and the text stored in
    [dataset.info]. *)
Definition log_message (log_content : text) : text := re_sub path_re [] log_content.

Definition log_paired_end_reads (log_msg : text) : bool := re_search paired_re log_msg.
Definition log_long_reads (log_msg : text) : bool := re_search long_re log_msg.
Definition log_short2_reads (log_msg : text) : bool := re_search short2_re log_msg.
Definition log_info (log_msg : text) : text :=
  re_sub velveth_re (py "hash_length") (re_sub newline_re (py " ") log_msg).

(** The body of the [try] of [regenerate_primary_file]: the dataset with its
    metadata and info assigned, and [gen_msg]. *)
Definition regenerate_try (files : fs) (dataset : DatasetInstance)
    : result (DatasetInstance * text) :=
  efp <- get_extra_files_path dataset ;;;
  let log_path := os_path_join efp (py "Log") in
  f <- open_r files log_path ;;;
  log_content <- read f 1000 ;;;
  let log_msg := log_message log_content in
  let paired_end_reads := log_paired_end_reads log_msg in
  let long_reads := log_long_reads log_msg in
  let short2_reads := log_short2_reads log_msg in
  let dataset :=
    {| extra_files_path := extra_files_path dataset;
       file_name := file_name dataset;
       metadata := {| paired_end_reads := PyBool paired_end_reads;
                      long_reads := PyBool long_reads;
                      short2_reads := PyBool short2_reads |};
       info := PyStr (log_info log_msg) |} in
  let gen_msg := [] in
  let gen_msg := if paired_end_reads then gen_msg ++ py " Paired-End Reads" else gen_msg in
  let gen_msg := if long_reads then gen_msg ++ py " Long Reads" else gen_msg in
  let gen_msg := if (0 <? List.length gen_msg)%nat then py "Uses: " ++ gen_msg else gen_msg in
  Ok (dataset, gen_msg).

(** The [try ... except Exception] of [regenerate_primary_file].  The
    handler formats [efp] into its message, which is unbound when reading
    the property failed. *)
Definition regenerate_flags (files : fs) (dataset : DatasetInstance)
    : result (DatasetInstance * text) :=
  match regenerate_try files dataset with
  | Ok r => Ok r
  | Raise _ =>
      match extra_files_path dataset with
      | Some _ => Ok (dataset, [])
      | None => Raise UnboundLocalError
      end
  end.

(** The page [regenerate_primary_file] writes. *)
Definition regenerate_page (self : odict) (gen_msg : text) : text :=
  let rval := [html_head] in
  let rval := rval ++ [py "<div>Generated:<p/> " ++ gen_msg ++ py " </div>"] in
  let rval := rval ++ [py "<div>Velveth dataset:<p/><ul>"] in
  let rval :=
    fold_left (fun rval entry =>
                 if negb (re_search Log_re (fst entry))
                 then rval ++ [list_item (fst entry) (snd entry)]
                 else rval)
              (get_composite_files self) rval in
  let rval := rval ++ [html_foot] in
  join [LF] rval ++ [LF].

(** [Velvet.regenerate_primary_file]: the flags, then the page written to
    the dataset's file, outside the [try]. *)
Definition regenerate_primary_file (self : odict) (files : fs) (dataset : DatasetInstance)
    : run :=
  match regenerate_flags files dataset with
  | Raise e => {| files_after := files; dataset_after := dataset; ended := Raised e |}
  | Ok (dataset', gen_msg) =>
      let page := regenerate_page self gen_msg in
      match open_w files (file_name dataset') with
      | Raise e => {| files_after := files; dataset_after := dataset'; ended := Raised e |}
      | Ok f =>
          {| files_after := fs_write files f page;
             dataset_after := dataset';
             ended := Returned |}
      end
  end.

(** ** Example data *)

(** A database with no space and no digit above ASCII. *)
Definition ascii_only : UnicodeData :=
  {| space_above_ascii := fun _ => false; decimal_above_ascii := fun _ => false |}.

(** A prefix whose second line is the first token. *)
Definition example_prefix : FilePrefix :=
  {| line_iterator := [py "{FOO\n"; py "{RED\n"]; string_io := py "{FOO\n{RED\n" |}.

Definition empty_prefix : FilePrefix := {| line_iterator := []; string_io := [] |}.

(** A dataset before any metadata was set, its log, and a file system with
    and without the log. *)
Definition example_dataset : DatasetInstance :=
  {| extra_files_path := Some (py "/data/dataset_1_files");
     file_name := py "/data/dataset_1.dat";
     metadata := {| paired_end_reads := PyStr (py "False");
                    long_reads := PyStr (py "False");
                    short2_reads := PyStr (py "False") |};
     info := PyNone |}.

Definition example_log : text := py "velveth -shortPaired2 -long /some/path/x\n".

(** The paths of the examples: the Log file under two spellings, the
    dataset's file, and the same two elsewhere. *)
Definition example_resolve (p : text) : option node :=
  if text_eqb p (py "/data/dataset_1_files/Log")
     || text_eqb p (py "/data/dataset_1_files//Log") then Some 1%nat
  else if text_eqb p (py "/data/dataset_1.dat") then Some 2%nat
  else if text_eqb p (py "/srv/files/Log") then Some 3%nat
  else if text_eqb p (py "/srv/dataset_2.dat") then Some 4%nat
  else None.

(** The files with [log] as the first Log file, all of them readable and
    writable. *)
Definition files_with (log : option text) : fs :=
  {| resolve := example_resolve;
     stored := fun n => if Nat.eqb n 1 then log else None;
     readable := fun _ => true;
     writable := fun _ => true |}.

Definition example_files : fs := files_with (Some example_log).

Definition no_files : fs := files_with None.


(** A dataset whose extra files path cannot be read. *)
Definition pathless_dataset : DatasetInstance :=
  {| extra_files_path := None;
     file_name := py "/data/dataset_1.dat";
     metadata := {| paired_end_reads := PyStr (py "False");
                    long_reads := PyStr (py "False");
                    short2_reads := PyStr (py "False") |};
     info := PyNone |}.

(** A dataset whose own file is the Log file, spelled otherwise. *)
Definition alias_dataset : DatasetInstance :=
  {| extra_files_path := Some (py "/data/dataset_1_files");
     file_name := py "/data/dataset_1_files//Log";
     metadata := {| paired_end_reads := PyStr (py "False");
                    long_reads := PyStr (py "False");
                    short2_reads := PyStr (py "False") |};
     info := PyNone |}.

(** The same dataset stored elsewhere. *)
Definition other_dataset : DatasetInstance :=
  {| extra_files_path := Some (py "/srv/files/");
     file_name := py "/srv/dataset_2.dat";
     metadata := {| paired_end_reads := PyBool false;
                    long_reads := PyBool false;
                    short2_reads := PyBool false |};
     info := PyStr (py "old") |}.

Definition other_files : fs :=
  {| resolve := example_resolve;
     stored := fun n => if Nat.eqb n 3 then Some example_log else None;
     readable := fun _ => true;
     writable := fun _ => true |}.

(** An indexed FASTA text, the same with blanks around its lines, and what
    may follow it. *)
Definition fasta_prefix : FilePrefix :=
  {| line_iterator := []; string_io := py ">seq1\t1\t1\nACGT\n" |}.

Definition fasta_prefix_blanks : FilePrefix :=
  {| line_iterator := []; string_io := py "  >seq1\t1\t1 \n ACGT  \n" |}.

Definition fasta_prefix_longer : FilePrefix :=
  {| line_iterator := []; string_io := py ">seq1\t1\t1\nACGT\n>seq2\t2\t1\n" |}.

(** A roadmap after a blank line. *)
Definition blank_first_prefix : FilePrefix :=
  {| line_iterator := []; string_io := py "\n142858\t21\t1\nROADMAP 1\n" |}.

(** More lines after [example_prefix], and an empty string among them. *)
Definition example_prefix_longer : FilePrefix :=
  {| line_iterator := [py "{FOO\n"; py "{RED\n"; py "iid:1\n"]; string_io := [] |}.

Definition example_prefix_cut : FilePrefix :=
  {| line_iterator := [py "{FOO\n"; []; py "{RED\n"]; string_io := [] |}.

Definition example_prefix_head : FilePrefix :=
  {| line_iterator := [py "{FOO\n"]; string_io := [] |}.

(** Two logs that differ after their first 1000 characters. *)
Definition long_log : text := repeat SP 1000 ++ py "velveth out 31 -long".

Definition long_log' : text := repeat SP 1000.

Definition long_files : fs := files_with (Some long_log).

Definition long_files' : fs := files_with (Some long_log').

(** ** What the specification says

    The properties below are stated against these, which follow the words
    of the specification rather than the code. *)

(** [t] contains [w]. *)
Definition contains (t w : text) : Prop := exists a b, t = a ++ w ++ b.

(** A line that trims to nothing. *)
Definition blank (l : text) : Prop := strip l = [].

(** The lines from the first non-empty one on. *)
Fixpoint from_first_nonempty (lines : list text) : list text :=
  match lines with
  | [] => []
  | l :: lines' => if nonempty (strip l) then lines else from_first_nonempty lines'
  end.

(** One of the tokens [{RED], [{CTG], [{TLE]. *)
Definition Amos_token (line : text) : Prop :=
  line = py "{RED" \/ line = py "{CTG" \/ line = py "{TLE".

Definition Amos_tokenb (line : text) : bool :=
  text_eqb line (py "{RED") || text_eqb line (py "{CTG") || text_eqb line (py "{TLE").

(** The Amos sniffer as specified: the first non-empty line alone decides. *)
Definition Amos_specified (lines : list text) : bool :=
  match from_first_nonempty lines with
  | [] => false
  | l :: _ => Amos_tokenb (strip l)
  end.

(** One or more decimal digits. *)
Definition digits (t : text) : Prop :=
  t <> [] /\ Forall (fun c => isdecimal c = true) t.

(** [>], a name without tab, a tab, digits, a tab, digits. *)
Definition index_header (line : text) : Prop :=
  exists name idx cat,
    line = py ">" ++ name ++ [TAB] ++ idx ++ [TAB] ++ cat
    /\ name <> [] /\ Forall (fun c => c <> TAB) name
    /\ digits idx /\ digits cat.

(** Three integers separated by tabs. *)
Definition roadmap_header (line : text) : Prop :=
  exists a b c, line = a ++ [TAB] ++ b ++ [TAB] ++ c /\ digits a /\ digits b /\ digits c.

(** [ROADMAP ] and digits. *)
Definition roadmap_line (line : text) : Prop :=
  exists n, line = py "ROADMAP " ++ n /\ digits n.

(** The roadmap sniffer as specified: the first non-empty line and the line
    after it decide. *)
Definition Roadmaps_specified (fh : list text) : bool :=
  match from_first_nonempty fh with
  | [] => false
  | l :: rest =>
      re_match Roadmaps_re (strip l) && re_match ROADMAP_re (strip (fst (readline rest)))
  end.


(** The caption of the regenerated page for given flags. *)
Definition caption (paired long : bool) : text :=
  let gen_msg := [] in
  let gen_msg := if paired then gen_msg ++ py " Paired-End Reads" else gen_msg in
  let gen_msg := if long then gen_msg ++ py " Long Reads" else gen_msg in
  if (0 <? List.length gen_msg)%nat then py "Uses: " ++ gen_msg else gen_msg.

(** A text with its newlines turned into spaces. *)
Definition one_line (t : text) : text :=
  map (fun c => if char_eqb c LF then SP else c) t.

(** No slash before the first space of [s]. *)
Fixpoint run_free (s : text) : bool :=
  match s with
  | [] => true
  | c :: s' => if isspace c then true else negb (char_eqb c 47) && run_free s'
  end.

(** The [/] that ends a path. *)
Definition slash_next (s : text) : option text :=
  bt (Str (py "/")) s (fun rest => Some rest).

(** What stands after the last slash of [w], when it has a slash. *)
Fixpoint after_last_slash (w : text) : option text :=
  match w with
  | [] => None
  | c :: w' =>
      match after_last_slash w' with
      | Some post => Some post
      | None => if char_eqb c 47 then Some w' else None
      end
  end.

(** A run of characters without its path: what stands from its first
    slash through its last one is removed, when it has two slashes at
    least. *)
Fixpoint strip_segments (w : text) : text :=
  match w with
  | [] => []
  | c :: w' =>
      if char_eqb c 47
      then match after_last_slash w' with
           | Some post => post
           | None => w
           end
      else c :: strip_segments w'
  end.

(** The run of characters that are no space at the head of [t], and the
    rest of [t] with the paths of its runs stripped. *)
Fixpoint strip_paths_word (t : text) : text * text :=
  match t with
  | [] => ([], [])
  | c :: t' =>
      let (w, out) := strip_paths_word t' in
      if isspace c then ([], c :: strip_segments w ++ out) else (c :: w, out)
  end.

(** The log with its path-like fragments stripped: the spaces stay, and
    every run of characters between them loses its path. *)
Definition strip_paths (t : text) : text :=
  let (w, out) := strip_paths_word t in strip_segments w ++ out.

(** No slash in [w]. *)
Definition no_slash (w : text) : bool := forallb (fun c => negb (char_eqb c 47)) w.

(** What a pattern matches: [den r s rest] when [r] matches a prefix of [s]
    that leaves [rest]. *)
Fixpoint den (r : regex) (s rest : text) : Prop :=
  match r with
  | Eps => rest = s
  | Chr c => s = c :: rest
  | Cls p => exists c, s = c :: rest /\ p c = true
  | Seq r1 r2 => exists mid, den r1 s mid /\ den r2 mid rest
  | Alt r1 r2 => den r1 s rest \/ den r2 s rest
  | Opt r1 => den r1 s rest \/ rest = s
  | Star p => exists u, s = u ++ rest /\ forallb p u = true
  | Plus p => exists c u, s = c :: u ++ rest /\ p c = true /\ forallb p u = true
  | Eol => rest = s /\ (s = [] \/ s = [LF])
  end.

(** ** Text lemmas *)

Lemma char_eqb_eq (a b : char) : char_eqb a b = true <-> a = b.
Proof. apply N.eqb_eq. Qed.

Lemma char_eqb_refl (a : char) : char_eqb a a = true.
Proof. apply N.eqb_refl. Qed.

Lemma text_eqb_eq (a b : text) : text_eqb a b = true <-> a = b.
Proof.
  revert b; induction a as [|x a IH]; intros [|y b]; simpl; split; intro H;
    try reflexivity; try discriminate.
  - apply andb_true_iff in H as [Hx Ha].
    apply char_eqb_eq in Hx. apply IH in Ha. congruence.
  - injection H as -> ->. rewrite char_eqb_refl. simpl. now apply IH.
Qed.

Lemma startswith_iff (s p : text) : startswith s p = true <-> exists r, s = p ++ r.
Proof.
  revert s; induction p as [|x p IH]; intros s; simpl.
  - split; [intros _; now exists s | intros _; now destruct s].
  - destruct s as [|y s]; split.
    + discriminate.
    + intros [r H]; discriminate.
    + intro H. apply andb_true_iff in H as [Hx Hp].
      apply char_eqb_eq in Hx. apply IH in Hp as [r ->]. exists r. now subst.
    + intros [r H]. injection H as Hy Hs. subst y.
      apply andb_true_iff. split; [apply char_eqb_refl|]. apply IH. now exists r.
Qed.

Lemma nonempty_false (s : text) : nonempty s = false <-> s = [].
Proof. destruct s; simpl; split; congruence. Qed.

Lemma nonempty_true (s : text) : nonempty s = true <-> s <> [].
Proof. destruct s; simpl; split; congruence. Qed.

(** What [lstrip] leaves starts with a character that is no space. *)
Lemma lstrip_head (s : text) (c : char) (t : text) :
  lstrip s = c :: t -> isspace c = false.
Proof.
  induction s as [|x s IH]; simpl; [discriminate|].
  destruct (isspace x) eqn:Hx; [assumption|].
  intro H. injection H as -> _. exact Hx.
Qed.

Lemma lstrip_nonspace (c : char) (t : text) :
  isspace c = false -> lstrip (c :: t) = c :: t.
Proof. intro H. simpl. now rewrite H. Qed.

(** What [rstrip] leaves ends with a character that is no space. *)
Lemma rstrip_last (s t : text) (c : char) :
  rstrip s = t ++ [c] -> isspace c = false.
Proof.
  unfold rstrip. intro H.
  apply (f_equal (@rev char)) in H. rewrite rev_involutive, rev_app_distr in H.
  simpl in H. now apply lstrip_head in H.
Qed.

Lemma strip_last (s t : text) (c : char) :
  strip s = t ++ [c] -> isspace c = false.
Proof. apply rstrip_last. Qed.

Lemma isspace_LF : isspace LF = true.
Proof. reflexivity. Qed.

Lemma isspace_SP : isspace SP = true.
Proof. reflexivity. Qed.

(** A trimmed line does not end with a newline. *)
Lemma strip_no_LF (s t : text) : strip s <> t ++ [LF].
Proof.
  intro H. apply strip_last in H. rewrite isspace_LF in H. discriminate.
Qed.

(** [rstrip] keeps a first character that is no space. *)
Lemma rstrip_cons (c : char) (t : text) :
  isspace c = false -> exists t', rstrip (c :: t) = c :: t'.
Proof.
  intro Hc. unfold rstrip. simpl rev.
  assert (G : forall u, exists u', lstrip (u ++ [c]) = u' ++ [c]).
  { induction u as [|x u [u' IH]]; simpl.
    - rewrite Hc. now exists [].
    - destruct (isspace x).
      + now exists u'.
      + now exists (x :: u). }
  destruct (G (rev t)) as [u' ->]. rewrite rev_app_distr. simpl. now exists (rev u').
Qed.

Lemma strip_cons (c : char) (t : text) :
  isspace c = false -> exists t', strip (c :: t) = c :: t'.
Proof.
  intro Hc. unfold strip. rewrite lstrip_nonspace by assumption.
  now apply rstrip_cons.
Qed.

(** ** The matcher finds what the patterns denote *)

Section MatcherFacts.
Variable A : Type.
Implicit Types (k : text -> option A) (s : text).

Lemma star_cls_some (p : char -> bool) s k :
  star_cls p s k <> None <->
  exists u rest, s = u ++ rest /\ forallb p u = true /\ k rest <> None.
Proof.
  induction s as [|c s IH]; simpl.
  - split.
    + intro H. now exists [], [].
    + intros (u & rest & E & _ & H).
      symmetry in E. apply app_eq_nil in E as [_ ->]. exact H.
  - destruct (p c) eqn:Hc.
    + destruct (star_cls p s k) eqn:Hs.
      * split; [intros _ | discriminate].
        assert (G : Some a <> None) by discriminate.
        apply IH in G as (u & rest & -> & Hu & Hk).
        exists (c :: u), rest. simpl. now rewrite Hc.
      * split.
        -- intro H. now exists [], (c :: s).
        -- intros ([|x u] & rest & E & Hu & Hk); simpl in E.
           ++ now subst rest.
           ++ injection E as -> ->. simpl in Hu. apply andb_true_iff in Hu as [_ Hu].
              exfalso. apply (proj2 IH); [|reflexivity]. now exists u, rest.
    + split.
      * intro H. now exists [], (c :: s).
      * intros ([|x u] & rest & E & Hu & Hk); simpl in E.
        -- now subst rest.
        -- injection E as -> ->. simpl in Hu. rewrite Hc in Hu. discriminate.
Qed.

Lemma bt_some (r : regex) : forall s k,
  bt r s k <> None <-> exists rest, den r s rest /\ k rest <> None.
Proof.
  induction r as [|c|p|r1 IH1 r2 IH2|r1 IH1 r2 IH2|r1 IH1|p|p|]; intros s k; simpl.
  - split; [intro H; now exists s | now intros (rest & -> & H)].
  - destruct s as [|x s].
    + split; [congruence | intros (rest & E & _); discriminate].
    + destruct (char_eqb x c) eqn:Hx.
      * apply char_eqb_eq in Hx. subst x.
        split; [intro H; now exists s | intros (rest & E & H); congruence].
      * split; [congruence|]. intros (rest & E & _). injection E as -> _.
        rewrite char_eqb_refl in Hx. discriminate.
  - destruct s as [|x s].
    + split; [congruence | intros (rest & (c & E & _) & _); discriminate].
    + destruct (p x) eqn:Hx.
      * split; [intro H; exists s; split; [now exists x | exact H]|].
        intros (rest & (c & E & _) & H). congruence.
      * split; [congruence|]. intros (rest & (c & E & Hc) & _).
        injection E as -> _. congruence.
  - rewrite IH1. split.
    + intros (mid & H1 & H2). apply IH2 in H2 as (rest & H2 & Hk).
      exists rest. split; [now exists mid | exact Hk].
    + intros (rest & (mid & H1 & H2) & Hk). exists mid. split; [exact H1|].
      apply IH2. now exists rest.
  - destruct (bt r1 s k) eqn:H1.
    + split; [intros _ | discriminate].
      assert (G : bt r1 s k <> None) by (rewrite H1; discriminate).
      apply IH1 in G as (rest & G & Hk). exists rest. now split; [left|].
    + rewrite IH2. split.
      * intros (rest & G & Hk). exists rest. now split; [right|].
      * intros (rest & [G|G] & Hk).
        -- exfalso. apply (proj2 (IH1 s k)); [now exists rest | exact H1].
        -- now exists rest.
  - destruct (bt r1 s k) eqn:H1.
    + split; [intros _ | discriminate].
      assert (G : bt r1 s k <> None) by (rewrite H1; discriminate).
      apply IH1 in G as (rest & G & Hk). exists rest. now split; [left|].
    + split.
      * intro Hk. exists s. now split; [right|].
      * intros (rest & [G| ->] & Hk); [|exact Hk].
        exfalso. apply (proj2 (IH1 s k)); [now exists rest | exact H1].
  - rewrite star_cls_some. split.
    + intros (u & rest & E & Hu & Hk). exists rest. split; [now exists u | exact Hk].
    + intros (rest & (u & E & Hu) & Hk). now exists u, rest.
  - destruct s as [|x s].
    + split; [congruence | intros (rest & (c & u & E & _) & _); discriminate].
    + destruct (p x) eqn:Hx.
      * rewrite star_cls_some. split.
        -- intros (u & rest & -> & Hu & Hk). exists rest. split; [now exists x, u | exact Hk].
        -- intros (rest & (c & u & E & Hc & Hu) & Hk). injection E as -> ->.
           now exists u, rest.
      * split; [congruence|]. intros (rest & (c & u & E & Hc & _) & _).
        injection E as -> _. congruence.
  - destruct s as [|x [|y s]].
    + split; [intro H; exists []; now split; [split; [|left]|] |].
      now intros (rest & (-> & _) & H).
    + destruct (char_eqb x LF) eqn:Hx.
      * apply char_eqb_eq in Hx. subst x.
        split; [intro H; exists [LF]; now split; [split; [|right]|] |].
        now intros (rest & (-> & _) & H).
      * split; [congruence|]. intros (rest & (_ & [E|E]) & _); [discriminate|].
        injection E as ->. rewrite char_eqb_refl in Hx. discriminate.
    + split; [congruence|]. intros (rest & (_ & [E|E]) & _); discriminate.
Qed.

End MatcherFacts.

Lemma match_at_some (r : regex) (s : text) :
  match_at r s <> None <-> exists rest, den r s rest.
Proof.
  unfold match_at. rewrite bt_some. split.
  - intros (rest & H & _). now exists rest.
  - intros (rest & H). exists rest. split; [exact H | discriminate].
Qed.

Lemma re_match_iff (r : regex) (s : text) :
  re_match r s = true <-> exists rest, den r s rest.
Proof.
  rewrite <- match_at_some. unfold re_match.
  destruct (match_at r s); split; congruence.
Qed.

Lemma re_search_iff (r : regex) (s : text) :
  re_search r s = true <-> exists a b rest, s = a ++ b /\ den r b rest.
Proof.
  induction s as [|c s IH]; simpl.
  - destruct (match_at r []) eqn:H.
    + split; [intros _ | reflexivity].
      assert (G : match_at r [] <> None) by (rewrite H; discriminate).
      apply match_at_some in G as (rest & G). now exists [], [], rest.
    + split; [discriminate|]. intros (a & b & rest & E & G).
      symmetry in E. apply app_eq_nil in E as [_ ->].
      exfalso. apply (proj2 (match_at_some r [])); [now exists rest | exact H].
  - destruct (match_at r (c :: s)) eqn:H.
    + split; [intros _ | reflexivity].
      assert (G : match_at r (c :: s) <> None) by (rewrite H; discriminate).
      apply match_at_some in G as (rest & G). now exists [], (c :: s), rest.
    + rewrite IH. split.
      * intros (a & b & rest & -> & G). now exists (c :: a), b, rest.
      * intros ([|x a] & b & rest & E & G); simpl in E.
        -- subst b. exfalso.
           apply (proj2 (match_at_some r (c :: s))); [now exists rest | exact H].
        -- injection E as -> ->. now exists a, b, rest.
Qed.

(** A literal matches itself and nothing else. *)
Lemma den_Str (w s rest : text) : den (Str w) s rest <-> s = w ++ rest.
Proof.
  revert s; induction w as [|c w IH]; intro s.
  - simpl. split; congruence.
  - destruct w as [|d w].
    + simpl. reflexivity.
    + change (Str (c :: d :: w)) with (Seq (Chr c) (Str (d :: w))).
      simpl den at 1. split.
      * intros (mid & -> & H). apply IH in H. now subst mid.
      * intros ->. exists ((d :: w) ++ rest). split; [reflexivity|]. now apply IH.
Qed.

Lemma den_Plus (p : char -> bool) (s rest : text) :
  den (Plus p) s rest <-> exists w, s = w ++ rest /\ w <> [] /\ forallb p w = true.
Proof.
  simpl. split.
  - intros (c & u & -> & Hc & Hu). exists (c :: u). simpl. rewrite Hc, Hu.
    repeat split. discriminate.
  - intros ([|c u] & -> & Hw & Hp); [congruence|]. simpl in Hp.
    apply andb_true_iff in Hp as [Hc Hu]. now exists c, u.
Qed.

Lemma digits_iff (t : text) : digits t <-> t <> [] /\ forallb digit t = true.
Proof.
  unfold digits, digit. rewrite forallb_forall, Forall_forall. tauto.
Qed.

Lemma den_digits (s rest : text) :
  den (Plus digit) s rest <-> exists w, s = w ++ rest /\ digits w.
Proof.
  rewrite den_Plus. split; intros (w & E & H); exists w; split; trivial;
    now apply digits_iff.
Qed.

Lemma nontab_iff (t : text) :
  forallb nontab t = true <-> Forall (fun c => c <> TAB) t.
Proof.
  rewrite forallb_forall, Forall_forall. unfold nontab.
  split; intros H c Hc; specialize (H c Hc).
  - intro E. subst c. now rewrite char_eqb_refl in H.
  - destruct (char_eqb c TAB) eqn:E; [|reflexivity].
    apply char_eqb_eq in E. contradiction.
Qed.

(** ** The patterns of the sniffers on trimmed lines *)

Lemma Amos_re_token (line : text) :
  (forall t, line <> t ++ [LF]) ->
  re_match Amos_re line = true <-> Amos_token line.
Proof.
  intro Hlf. unfold Amos_token. split.
  - intro H. apply re_match_iff in H as (rest & mid & H1 & mid2 & H2 & -> & H3).
    apply den_Str in H1. subst line.
    assert (E : mid = py "RED" ++ mid2 \/ mid = py "CTG" ++ mid2 \/ mid = py "TLE" ++ mid2).
    { destruct H2 as [H2|[H2|H2]]; apply den_Str in H2; auto. }
    destruct H3 as [-> | ->].
    + destruct E as [-> | [-> | ->]]; auto.
    + exfalso. destruct E as [-> | [-> | ->]].
      * now apply (Hlf (py "{RED")).
      * now apply (Hlf (py "{CTG")).
      * now apply (Hlf (py "{TLE")).
  - intros [-> | [-> | ->]]; reflexivity.
Qed.

Lemma Amos_tokenb_iff (line : text) : Amos_tokenb line = true <-> Amos_token line.
Proof.
  unfold Amos_tokenb, Amos_token.
  rewrite !orb_true_iff, !text_eqb_eq. tauto.
Qed.

(** On a trimmed line the pattern of the Amos sniffer tests for a token. *)
Lemma Amos_re_strip (l : text) :
  re_match Amos_re (strip l) = Amos_tokenb (strip l).
Proof.
  apply eq_true_iff_eq. rewrite Amos_tokenb_iff.
  apply Amos_re_token. intro t. apply strip_no_LF.
Qed.

(** On a trimmed line the pattern of the Sequences sniffer tests for an
    index header. *)
Lemma Sequences_re_header (line : text) :
  (forall t, line <> t ++ [LF]) ->
  re_match Sequences_re line = true <-> index_header line.
Proof.
  intro Hlf. rewrite re_match_iff. unfold Sequences_re, index_header. split.
  - intros (rest & m1 & H1 & m2 & H2 & m3 & H3 & m4 & H4 & m5 & H5 & m6 & H6 & H7).
    apply den_Str in H1. apply den_Plus in H2 as (name & -> & Hn & Hname).
    simpl in H3. apply den_digits in H4 as (idx & -> & Hidx).
    simpl in H5. apply den_digits in H6 as (cat & -> & Hcat).
    destruct H7 as (-> & [-> | ->]); subst.
    + exists name, idx, cat. rewrite app_nil_r. repeat split; trivial.
      * now apply nontab_iff.
      * apply Hidx.
      * apply Hidx.
      * apply Hcat.
      * apply Hcat.
    + exfalso. apply (Hlf (py ">" ++ name ++ [TAB] ++ idx ++ [TAB] ++ cat)).
      now rewrite <- !app_assoc.
  - intros (name & idx & cat & -> & Hn & Hname & Hidx & Hcat).
    exists []. exists (name ++ [TAB] ++ idx ++ [TAB] ++ cat).
    split; [now apply den_Str|].
    exists ([TAB] ++ idx ++ [TAB] ++ cat).
    split; [apply den_Plus; exists name; repeat split; trivial; now apply nontab_iff|].
    exists (idx ++ [TAB] ++ cat). split; [reflexivity|].
    exists ([TAB] ++ cat). split; [apply den_digits; now exists idx|].
    exists cat. split; [reflexivity|].
    exists []. split; [apply den_digits; exists cat; now rewrite app_nil_r|].
    split; auto.
Qed.

Lemma Roadmaps_re_header (line : text) :
  (forall t, line <> t ++ [LF]) ->
  re_match Roadmaps_re line = true <-> roadmap_header line.
Proof.
  intro Hlf. rewrite re_match_iff. unfold Roadmaps_re, roadmap_header. split.
  - intros (rest & m1 & H1 & m2 & H2 & m3 & H3 & m4 & H4 & m5 & H5 & H6).
    apply den_digits in H1 as (a & -> & Ha). simpl in H2.
    apply den_digits in H3 as (b & -> & Hb). simpl in H4.
    apply den_digits in H5 as (c & -> & Hc).
    destruct H6 as (-> & [-> | ->]); subst.
    + exists a, b, c. now rewrite app_nil_r.
    + exfalso. apply (Hlf (a ++ [TAB] ++ b ++ [TAB] ++ c)).
      now rewrite <- !app_assoc.
  - intros (a & b & c & -> & Ha & Hb & Hc).
    exists []. exists ([TAB] ++ b ++ [TAB] ++ c).
    split; [apply den_digits; now exists a|].
    exists (b ++ [TAB] ++ c). split; [reflexivity|].
    exists ([TAB] ++ c). split; [apply den_digits; now exists b|].
    exists c. split; [reflexivity|].
    exists []. split; [apply den_digits; exists c; now rewrite app_nil_r|].
    split; auto.
Qed.

Lemma ROADMAP_re_line (line : text) :
  (forall t, line <> t ++ [LF]) ->
  re_match ROADMAP_re line = true <-> roadmap_line line.
Proof.
  intro Hlf. rewrite re_match_iff. unfold ROADMAP_re, roadmap_line. split.
  - intros (rest & m1 & H1 & m2 & H2 & H3).
    apply den_Str in H1. apply den_digits in H2 as (n & -> & Hn).
    destruct H3 as (-> & [-> | ->]); subst.
    + exists n. now rewrite app_nil_r.
    + exfalso. apply (Hlf (py "ROADMAP " ++ n)). now rewrite <- !app_assoc.
  - intros (n & -> & Hn).
    exists []. exists n. split; [now apply den_Str|].
    exists []. split; [apply den_digits; exists n; now rewrite app_nil_r|].
    split; auto.
Qed.

(** ** The Amos sniffer *)

(** One step of the loop of the Amos sniffer. *)
Lemma Amos_for_cons (l : text) (lines : list text) :
  Amos_for (l :: lines) =
  nonempty l && (Amos_tokenb (strip l) || Amos_for lines).
Proof.
  simpl. destruct (nonempty l); simpl; [|reflexivity].
  rewrite Amos_re_strip.
  destruct (Amos_tokenb (strip l)) eqn:Ht; simpl.
  - apply Amos_tokenb_iff in Ht.
    destruct Ht as [E | [E | E]]; rewrite E; reflexivity.
  - destruct (nonempty (strip l)); [destruct (startswith _ _)|]; reflexivity.
Qed.

(** C10: a non-empty line that is no token does not end the scan of the
    Amos sniffer; it answers true as soon as some line before the end of the
    input trims to [{RED], [{CTG] or [{TLE], whatever the non-empty lines
    before it are. *)
Theorem Amos_scans_past_mismatch
    (file_prefix : FilePrefix) (before after : list text) (l : text) :
  line_iterator file_prefix = before ++ l :: after ->
  Forall (fun x => x <> []) before ->
  Amos_token (strip l) ->
  Amos_sniff_prefix file_prefix = true.
Proof.
  intros E Hb Ht. unfold Amos_sniff_prefix. rewrite E. clear E.
  induction Hb as [|x before Hx Hb IH]; simpl app; rewrite Amos_for_cons.
  - apply Amos_tokenb_iff in Ht. rewrite Ht.
    destruct l; [|reflexivity].
    apply Amos_tokenb_iff in Ht. destruct Ht as [H | [H | H]]; discriminate.
  - rewrite IH, orb_true_r. now destruct x.
Qed.

(** C1, as the code has it: the Amos sniffer answers true exactly when some
    line before the end of the input trims to exactly [{RED], [{CTG] or
    [{TLE]; the scan stops at the end of the input or at the first such
    line, and the answer is false on empty input and when no line is a
    token. *)
Theorem Amos_sniff_prefix_iff (file_prefix : FilePrefix) :
  Amos_sniff_prefix file_prefix = true <->
  exists before l after,
    line_iterator file_prefix = before ++ l :: after
    /\ Forall (fun x => x <> []) before
    /\ Forall (fun x => ~ Amos_token (strip x)) before
    /\ Amos_token (strip l).
Proof.
  unfold Amos_sniff_prefix. generalize (line_iterator file_prefix) as lines.
  induction lines as [|x lines IH].
  - simpl. split; [discriminate|].
    intros ([|y before] & l & after & E & _); discriminate.
  - rewrite Amos_for_cons, andb_true_iff, orb_true_iff, nonempty_true, IH.
    destruct (Amos_tokenb (strip x)) eqn:Hx.
    + apply Amos_tokenb_iff in Hx. split.
      * intros [Hne _]. exists [], x, lines. repeat split; auto.
      * intros _. split; [|now left]. intros ->.
        destruct Hx as [H | [H | H]]; discriminate.
    + assert (Hn : ~ Amos_token (strip x)).
      { intro H. apply Amos_tokenb_iff in H. congruence. }
      split.
      * intros [Hne [H | (before & l & after & -> & Hb & Hm & Ht)]]; [discriminate|].
        exists (x :: before), l, after. repeat split; auto.
      * intros ([|y before] & l & after & E & Hb & Hm & Ht); simpl in E;
          injection E as -> ->; [contradiction|].
        inversion Hb; subst. inversion Hm; subst. split; [assumption|].
        right. now exists before, l, after.
Qed.

(** Where the first non-empty line is a token, code and specification
    agree. *)
Lemma Amos_specified_sound (lines : list text) :
  Forall (fun x => x <> []) lines ->
  Amos_specified lines = true -> Amos_for lines = true.
Proof.
  unfold Amos_specified. induction 1 as [|x lines Hx Hl IH]; [discriminate|].
  rewrite Amos_for_cons. simpl from_first_nonempty.
  apply nonempty_true in Hx. rewrite Hx. simpl.
  destruct (nonempty (strip x)) eqn:Hs.
  - now intros ->.
  - intro H. rewrite (IH H). apply orb_true_r.
Qed.

(** The examples of the specification: one line that is a token, and two
    that are not. *)
Lemma Amos_examples (fh : text) :
  Amos_sniff_prefix {| line_iterator := [py "{RED\n"]; string_io := fh |} = true
  /\ Amos_sniff_prefix {| line_iterator := [py "{REDX\n"]; string_io := fh |} = false
  /\ Amos_sniff_prefix {| line_iterator := [py "{FOO\n"]; string_io := fh |} = false.
Proof. repeat split. Qed.

(** ** The Roadmaps sniffer *)

Lemma readline_hd (fh : list text) : fst (readline fh) = hd [] fh.
Proof. now destruct fh. Qed.

(** The roadmap sniffer says yes exactly when the first line of the text is
    a roadmap header and the line after it a [ROADMAP] line. *)
Lemma Roadmaps_for_true_iff (fh : list text) :
  Roadmaps_for fh = true <->
  exists l rest,
    fh = l :: rest /\ roadmap_header (strip l) /\ roadmap_line (strip (hd [] rest)).
Proof.
  destruct fh as [|l rest]; simpl.
  - split; [discriminate | intros (? & ? & E & _); discriminate].
  - rewrite readline_hd.
    pose proof (Roadmaps_re_header (fun t => @strip_no_LF l t)) as R1.
    pose proof (ROADMAP_re_line (fun t => @strip_no_LF (hd [] rest) t)) as R2.
    split.
    + intro H. exists l, rest. split; [reflexivity|].
      destruct (nonempty (strip l)); [|discriminate].
      destruct (re_match Roadmaps_re (strip l)); [|discriminate].
      split; [now apply R1 | now apply R2].
    + intros (l' & rest' & E & H1 & H2). injection E as <- <-.
      apply R1 in H1 as H1'. apply R2 in H2. rewrite H1', H2. simpl.
      destruct H1 as (a & b & c & E & [Ha _] & _).
      rewrite E. destruct a; [congruence | reflexivity].
Qed.

(** Without a blank first line, code and specification agree. *)
Lemma Roadmaps_specified_agree (fh : list text) :
  nonempty (strip (hd [] fh)) = true ->
  Roadmaps_for fh = Roadmaps_specified fh.
Proof.
  destruct fh as [|l rest]; [discriminate|]. simpl hd. intro H.
  unfold Roadmaps_specified, Roadmaps_for. simpl from_first_nonempty.
  rewrite H. now destruct (re_match Roadmaps_re (strip l)).
Qed.

(** C2: a blank line before the header makes the roadmap sniffer answer
    false, although the first non-empty line is a header and the line after
    it a [ROADMAP] line. *)
Theorem Roadmaps_blank_first_line :
  forall lines : list text,
    let fh := py "\n142858\t21\t1\nROADMAP 1\n" in
    Roadmaps_sniff_prefix {| line_iterator := lines; string_io := fh |} = false
    /\ Roadmaps_specified (readlines fh) = true.
Proof. intro lines. split; reflexivity. Qed.

(** The examples of the specification: tabs and a [ROADMAP] line, spaces
    for tabs, and a [ROADMAP] line without a number. *)
Lemma Roadmaps_examples (lines : list text) :
  Roadmaps_sniff_prefix
    {| line_iterator := lines; string_io := py "142858\t21\t1\nROADMAP 1\n" |} = true
  /\ Roadmaps_sniff_prefix
       {| line_iterator := lines; string_io := py "142858 21 1\nROADMAP 1\n" |} = false
  /\ Roadmaps_sniff_prefix
       {| line_iterator := lines; string_io := py "142858\t21\t1\nROADMAP x\n" |} = false.
Proof. repeat split. Qed.

(** ** The Sequences sniffer *)

Lemma blank_iff (l : text) : blank l <-> nonempty (strip l) = false.
Proof. unfold blank. now rewrite nonempty_false. Qed.

Lemma index_header_starts (line : text) :
  index_header line -> startswith line (py ">") = true.
Proof.
  intros (name & idx & cat & -> & _). apply startswith_iff.
  now exists (name ++ [TAB] ++ idx ++ [TAB] ++ cat).
Qed.

(** One step of the loop of the Sequences sniffer. *)
Lemma Sequences_for_cons (l : text) (fh : list text) :
  Sequences_for (l :: fh) =
  if nonempty (strip l) then
    if startswith (strip l) (py ">") then
      if negb (re_match Sequences_re (strip l)) then false
      else if text_eqb (strip (fst (readline fh))) []
              || startswith (strip (fst (readline fh))) (py ">")
           then false else true
    else false
  else Sequences_for fh.
Proof. reflexivity. Qed.

(** The test of the two lines: the header, then the raw line after it. *)
Lemma Sequences_for_nonblank (l : text) (rest : list text) :
  nonempty (strip l) = true ->
  Sequences_for (l :: rest) = true <->
  index_header (strip l)
  /\ strip (hd [] rest) <> []
  /\ startswith (strip (hd [] rest)) (py ">") = false.
Proof.
  intro Hl. rewrite Sequences_for_cons, Hl, readline_hd.
  pose proof (Sequences_re_header (fun t => @strip_no_LF l t)) as R.
  split.
  - intro H.
    destruct (startswith (strip l) (py ">")); [|discriminate].
    destruct (re_match Sequences_re (strip l)); cbn [negb] in H; [|discriminate].
    split; [now apply R|].
    destruct (text_eqb (strip (hd [] rest)) []) eqn:He; cbn [orb] in H; [discriminate|].
    destruct (startswith (strip (hd [] rest)) (py ">")) eqn:Hs; [discriminate|].
    split; [|reflexivity].
    intro E. rewrite E in He. discriminate.
  - intros (Hh & Hne & Hs).
    pose proof (index_header_starts Hh) as Hgt.
    rewrite Hgt. apply R in Hh. rewrite Hh. cbn [negb]. rewrite Hs.
    destruct (text_eqb (strip (hd [] rest)) []) eqn:He; [|reflexivity].
    apply text_eqb_eq in He. contradiction.
Qed.

Lemma Sequences_for_blank (l : text) (rest : list text) :
  nonempty (strip l) = false -> Sequences_for (l :: rest) = Sequences_for rest.
Proof. intro Hl. now rewrite Sequences_for_cons, Hl. Qed.

Lemma Sequences_for_true_iff (fh : list text) :
  Sequences_for fh = true <->
  exists blanks l rest,
    fh = blanks ++ l :: rest
    /\ Forall blank blanks /\ ~ blank l
    /\ index_header (strip l)
    /\ strip (hd [] rest) <> []
    /\ startswith (strip (hd [] rest)) (py ">") = false.
Proof.
  induction fh as [|x fh IH].
  - simpl. split; [discriminate|].
    intros ([|y blanks] & l & rest & E & _); discriminate.
  - destruct (nonempty (strip x)) eqn:Hx.
    + rewrite (@Sequences_for_nonblank x fh Hx). split.
      * intros (H1 & H2 & H3). exists [], x, fh. repeat split; auto.
        intro B. apply blank_iff in B. congruence.
      * intros ([|y blanks] & l & rest & E & Hb & _ & H); simpl in E;
          injection E as -> ->; [exact H|].
        inversion Hb as [|? ? By _]; subst. apply blank_iff in By. congruence.
    + rewrite (@Sequences_for_blank x fh Hx), IH. split.
      * intros (blanks & l & rest & -> & Hb & H).
        exists (x :: blanks), l, rest. repeat split; try apply H.
        constructor; [now apply blank_iff | exact Hb].
      * intros ([|y blanks] & l & rest & E & Hb & Hn & H); simpl in E;
          injection E as -> ->.
        -- exfalso. apply Hn. now apply blank_iff.
        -- inversion Hb; subst. now exists blanks, l, rest.
Qed.

Lemma readlines_cons (c : char) (t : text) :
  char_eqb c LF = false -> exists l ls, readlines (c :: t) = (c :: l) :: ls.
Proof.
  intro H. simpl. rewrite H. destruct (readlines t) as [|l ls].
  - now exists [], [].
  - now exists l, ls.
Qed.

(** C3: the indexed-FASTA sniffer answers true exactly when the first
    non-empty line, trimmed, is [>], a name without tab, a tab, digits, a
    tab, digits, and the raw line right after it trims to a non-empty text
    that does not start with [>]; nothing after these two lines counts.
    [>seq1\t1\t1\nACGT\n] is accepted; the variant with spaces, a blank
    second line and a second line starting with [>] are rejected. *)
Theorem Sequences_sniff_prefix_iff :
  (forall file_prefix : FilePrefix,
     Sequences_sniff_prefix file_prefix = true <->
     exists blanks l rest,
       readlines (string_io file_prefix) = blanks ++ l :: rest
       /\ Forall blank blanks /\ ~ blank l
       /\ index_header (strip l)
       /\ strip (hd [] rest) <> []
       /\ startswith (strip (hd [] rest)) (py ">") = false)
  /\ (forall lines,
        Sequences_sniff_prefix
          {| line_iterator := lines; string_io := py ">seq1\t1\t1\nACGT\n" |} = true
        /\ Sequences_sniff_prefix
             {| line_iterator := lines; string_io := py ">seq1 1 1\nACGT\n" |} = false
        /\ Sequences_sniff_prefix
             {| line_iterator := lines; string_io := py ">seq1\t1\t1\n\n" |} = false)
  /\ (forall lines tail,
        Sequences_sniff_prefix
          {| line_iterator := lines;
             string_io := py ">seq1\t1\t1\n>seq2" ++ tail |} = false).
Proof.
  split; [|split].
  - intro file_prefix. apply Sequences_for_true_iff.
  - intro lines. repeat split; reflexivity.
  - intros lines tail.
    change (Sequences_for
              (py ">seq1\t1\t1\n" :: readlines (@cons char 62 (py "seq2" ++ tail)))
            = false).
    destruct (@readlines_cons 62 (py "seq2" ++ tail) eq_refl) as (l & ls & ->).
    destruct (@strip_cons 62 l eq_refl) as (t' & Hs).
    apply not_true_is_false. intro H.
    apply Sequences_for_nonblank in H; [|reflexivity].
    destruct H as (_ & _ & H). simpl hd in H. rewrite Hs in H.
    assert (G : startswith (62 :: t') (py ">") = true)
      by (apply startswith_iff; now exists t').
    exact (eq_true_false_abs _ G H).
Qed.

(** C9: on empty input each of the three sniffers answers false. *)
Theorem sniffers_reject_empty_input (file_prefix : FilePrefix) :
  line_iterator file_prefix = [] ->
  string_io file_prefix = [] ->
  Amos_sniff_prefix file_prefix = false
  /\ Sequences_sniff_prefix file_prefix = false
  /\ Roadmaps_sniff_prefix file_prefix = false.
Proof.
  intros Hl Hs.
  unfold Amos_sniff_prefix, Sequences_sniff_prefix, Roadmaps_sniff_prefix.
  rewrite Hl, Hs. repeat split.
Qed.

(** ** The flags read from the log *)

Lemma re_search_Str (w t : text) : re_search (Str w) t = true <-> contains t w.
Proof.
  rewrite re_search_iff. unfold contains. split.
  - intros (a & b & rest & -> & H). apply den_Str in H. subst b. now exists a, rest.
  - intros (a & b & ->). exists a, (w ++ b), b. split; [reflexivity | now apply den_Str].
Qed.

Lemma log_paired_end_reads_iff (log_msg : text) :
  log_paired_end_reads log_msg = true <->
  contains log_msg (py "-shortPaired") \/ contains log_msg (py "-longPaired").
Proof.
  unfold log_paired_end_reads, paired_re, contains. rewrite re_search_iff. split.
  - intros (a & b & rest & -> & m1 & H1 & m2 & H2 & H3).
    apply den_Str in H1. apply den_Str in H3. subst b m2.
    destruct H2 as [H2 | H2]; apply den_Str in H2; subst m1.
    + left. now exists a, rest.
    + right. now exists a, rest.
  - intros [(a & b & ->) | (a & b & ->)].
    + exists a, (py "-shortPaired" ++ b), b. split; [reflexivity|].
      exists (py "shortPaired" ++ b). split; [now apply den_Str|].
      exists (py "Paired" ++ b). split; [left|]; now apply den_Str.
    + exists a, (py "-longPaired" ++ b), b. split; [reflexivity|].
      exists (py "longPaired" ++ b). split; [now apply den_Str|].
      exists (py "Paired" ++ b). split; [right|]; now apply den_Str.
Qed.

Lemma log_long_reads_iff (log_msg : text) :
  log_long_reads log_msg = true <-> contains log_msg (py "-long").
Proof. apply re_search_Str. Qed.

Lemma log_short2_reads_iff (log_msg : text) :
  log_short2_reads log_msg = true <->
  contains log_msg (py "-short2") \/ contains log_msg (py "-shortPaired2").
Proof.
  unfold log_short2_reads, short2_re, contains. rewrite re_search_iff. split.
  - intros (a & b & rest & -> & m1 & H1 & m2 & H2 & H3).
    apply den_Str in H1. apply (proj1 (den_Str (py "2") _ _)) in H3.
    destruct H2 as [H2 | H2].
    + apply den_Str in H2. subst. right. exists a, rest. reflexivity.
    + subst. left. exists a, rest. reflexivity.
  - intros [(a & b & ->) | (a & b & ->)].
    + exists a, (py "-short2" ++ b), b. split; [reflexivity|].
      exists (py "2" ++ b). split; [now apply den_Str|].
      exists (py "2" ++ b). split; [now right | now apply den_Str].
    + exists a, (py "-shortPaired2" ++ b), b. split; [reflexivity|].
      exists (py "Paired2" ++ b). split; [now apply den_Str|].
      exists (py "2" ++ b). split; [left|]; now apply den_Str.
Qed.

(** *** Paths are removed between spaces

    A match of [/\S*/] holds no space, so the text is cleaned piece by
    piece between spaces. *)

Lemma isspace_not_slash (c : char) : isspace c = true -> char_eqb c 47 = false.
Proof.
  intro H. destruct (char_eqb c 47) eqn:E; [|reflexivity].
  apply char_eqb_eq in E. subst c. discriminate H.
Qed.

Lemma slash_next_cons (c : char) (s : text) :
  slash_next (c :: s) = if char_eqb c 47 then Some s else None.
Proof. reflexivity. Qed.

Lemma match_at_path_cons (c : char) (s : text) :
  match_at path_re (c :: s)
  = if char_eqb c 47 then star_cls nonspace s slash_next else None.
Proof. reflexivity. Qed.

Lemma star_nonspace_stop (k : text -> option text) (c : char) (v : text) :
  isspace c = true ->
  (forall x, k (x ++ c :: v) = option_map (fun r => r ++ c :: v) (k x)) ->
  forall t, star_cls nonspace (t ++ c :: v) k
            = option_map (fun r => r ++ c :: v) (star_cls nonspace t k).
Proof.
  intros Hc Hk t. induction t as [|x t IH].
  - simpl app. cbn [star_cls]. unfold nonspace. rewrite Hc. apply (Hk []).
  - simpl app. cbn [star_cls]. destruct (nonspace x).
    + rewrite IH. destruct (star_cls nonspace t k); [reflexivity|].
      apply (Hk (x :: t)).
    + apply (Hk (x :: t)).
Qed.

Lemma match_at_path_at_space (c : char) (w v : text) :
  isspace c = true ->
  match_at path_re (w ++ c :: v)
  = option_map (fun r => r ++ c :: v) (match_at path_re w).
Proof.
  intro Hc. destruct w as [|x w].
  - simpl app. rewrite match_at_path_cons. now rewrite (isspace_not_slash c Hc).
  - simpl app. rewrite !match_at_path_cons.
    destruct (char_eqb x 47); [|reflexivity].
    apply star_nonspace_stop; [exact Hc|]. intros [|y t].
    + simpl app. rewrite slash_next_cons. now rewrite (isspace_not_slash c Hc).
    + simpl app. rewrite !slash_next_cons. now destruct (char_eqb y 47).
Qed.

Lemma match_len_path_at_space (c : char) (w v : text) :
  isspace c = true ->
  match_len path_re (w ++ c :: v) = match_len path_re w.
Proof.
  intro Hc. unfold match_len. rewrite (@match_at_path_at_space c w v Hc).
  destruct (match_at path_re w) as [r|]; [|reflexivity]. simpl.
  f_equal. rewrite !length_app. simpl. lia.
Qed.

Lemma match_len_le (r : regex) (s : text) (n : nat) :
  match_len r s = Some n -> (n <= List.length s)%nat.
Proof.
  unfold match_len. destruct (match_at r s); [|discriminate].
  intro H. injection H as <-. lia.
Qed.

Lemma sub_from_path_at_space (c : char) (repl v : text) :
  isspace c = true ->
  forall (u : text) (skip : nat),
    (skip <= List.length u)%nat ->
    sub_from path_re repl skip (u ++ c :: v)
    = sub_from path_re repl skip u ++ c :: sub_from path_re repl 0 v.
Proof.
  intro Hc. induction u as [|x u IH]; intros skip Hskip.
  - simpl in Hskip. assert (skip = 0%nat) as -> by lia.
    simpl app. cbn [sub_from]. unfold match_len.
    rewrite match_at_path_cons. now rewrite (isspace_not_slash c Hc).
  - destruct skip as [|n].
    + change ((x :: u) ++ c :: v) with (x :: (u ++ c :: v)).
      cbn [sub_from].
      change (x :: (u ++ c :: v)) with ((x :: u) ++ c :: v).
      rewrite (@match_len_path_at_space c (x :: u) v Hc).
      destruct (match_len path_re (x :: u)) as [[|n]|] eqn:Hm.
      * rewrite IH by (simpl; lia). reflexivity.
      * apply match_len_le in Hm. simpl in Hm.
        rewrite IH by lia. now rewrite <- app_assoc.
      * rewrite IH by (simpl; lia). reflexivity.
    + simpl in Hskip. simpl. apply IH. lia.
Qed.

Lemma log_message_at_space (c : char) (u v : text) :
  isspace c = true ->
  log_message (u ++ c :: v) = log_message u ++ c :: log_message v.
Proof. intro Hc. apply sub_from_path_at_space; [exact Hc | apply Nat.le_0_l]. Qed.

Lemma log_message_space (u v : text) :
  log_message (u ++ SP :: v) = log_message u ++ SP :: log_message v.
Proof. apply log_message_at_space. apply isspace_SP. Qed.

(** The flags of a log that holds the line of the specification's
    example. *)
Lemma log_message_example (a b : text) :
  exists a' b',
    log_message (a ++ py "velveth -shortPaired2 -long /some/path/x" ++ b)
    = a' ++ py " -shortPaired2 -long " ++ b'.
Proof.
  change (py "velveth -shortPaired2 -long /some/path/x")
    with (py "velveth" ++ SP :: py "-shortPaired2" ++ SP :: py "-long"
            ++ SP :: py "/some/path/x").
  replace (a ++ (py "velveth" ++ SP :: py "-shortPaired2" ++ SP :: py "-long"
                   ++ SP :: py "/some/path/x") ++ b)
    with ((a ++ py "velveth") ++ SP :: py "-shortPaired2" ++ SP :: py "-long"
            ++ SP :: (py "/some/path/x" ++ b))
    by (now rewrite <- !app_assoc).
  rewrite !log_message_space.
  exists (log_message (a ++ py "velveth")), (log_message (py "/some/path/x" ++ b)).
  reflexivity.
Qed.

(** *** The substituted patterns match no empty text *)

Section MatcherSound.
Variable A : Type.
Implicit Types (k : text -> option A) (s : text).

Lemma star_cls_sound (p : char -> bool) s k (a : A) :
  star_cls p s k = Some a ->
  exists u rest, s = u ++ rest /\ forallb p u = true /\ k rest = Some a.
Proof.
  induction s as [|c s IH]; simpl.
  - intro H. now exists [], [].
  - destruct (p c) eqn:Hc.
    + destruct (star_cls p s k) as [b|] eqn:Hs.
      * intro E. injection E as ->.
        destruct (IH eq_refl) as (u & rest & -> & Hu & Hk).
        exists (c :: u), rest. simpl. now rewrite Hc.
      * intro H. now exists [], (c :: s).
    + intro H. now exists [], (c :: s).
Qed.

Lemma bt_sound (r : regex) : forall s k (a : A),
  bt r s k = Some a -> exists rest, den r s rest /\ k rest = Some a.
Proof.
  induction r as [|c|p|r1 IH1 r2 IH2|r1 IH1 r2 IH2|r1 IH1|p|p|]; intros s k a; simpl.
  - intro H. now exists s.
  - destruct s as [|x s]; [discriminate|].
    destruct (char_eqb x c) eqn:Hx; [|discriminate].
    apply char_eqb_eq in Hx. subst x. intro H. now exists s.
  - destruct s as [|x s]; [discriminate|].
    destruct (p x) eqn:Hx; [|discriminate].
    intro H. exists s. split; [now exists x | exact H].
  - intro H. apply IH1 in H as (mid & H1 & H).
    apply IH2 in H as (rest & H2 & H). exists rest. split; [now exists mid | exact H].
  - destruct (bt r1 s k) as [b|] eqn:H1.
    + intro E. injection E as ->. apply IH1 in H1 as (rest & H1 & H).
      exists rest. now split; [left|].
    + intro H. apply IH2 in H as (rest & H2 & H). exists rest. now split; [right|].
  - destruct (bt r1 s k) as [b|] eqn:H1.
    + intro E. injection E as ->. apply IH1 in H1 as (rest & H1 & H).
      exists rest. now split; [left|].
    + intro H. exists s. now split; [right|].
  - intro H. apply star_cls_sound in H as (u & rest & E & Hu & H).
    exists rest. split; [now exists u | exact H].
  - destruct s as [|x s]; [discriminate|].
    destruct (p x) eqn:Hx; [|discriminate].
    intro H. apply star_cls_sound in H as (u & rest & -> & Hu & H).
    exists rest. split; [now exists x, u | exact H].
  - destruct s as [|x [|y s]]; try discriminate.
    + intro H. exists []. now split; [split; [|left]|].
    + destruct (char_eqb x LF) eqn:Hx; [|discriminate].
      apply char_eqb_eq in Hx. subst x.
      intro H. exists [LF]. now split; [split; [|right]|].
Qed.

End MatcherSound.

Lemma match_at_sound (r : regex) (s rest : text) :
  match_at r s = Some rest -> den r s rest.
Proof.
  unfold match_at. intro H. apply bt_sound in H as (rest' & H & E).
  now injection E as ->.
Qed.

(** None of the three patterns given to [re.sub] matches the empty text. *)
Lemma no_empty_match (r : regex) (s : text) :
  In r [path_re; newline_re; velveth_re] -> match_len r s <> Some 0%nat.
Proof.
  intros Hr H. unfold match_len in H.
  destruct (match_at r s) as [rest|] eqn:Hm; [|discriminate].
  injection H as H. apply match_at_sound in Hm.
  assert (G : (List.length rest < List.length s)%nat); [|lia].
  clear H. destruct Hr as [<- | [<- | [<- | []]]].
  - destruct Hm as (m1 & H1 & m2 & (u & -> & _) & H2).
    simpl in H1, H2. subst. simpl. rewrite length_app. simpl. lia.
  - simpl in Hm. subst. simpl. lia.
  - destruct Hm as (m1 & (u & -> & _) & m2 & H1 & H2).
    apply den_Str in H1. apply den_Plus in H2 as (w & -> & _). subst.
    rewrite !length_app. simpl. lia.
Qed.

(** ** The generated primary file *)





(** ** More on the sniffers *)

(** X1: the roadmap sniffer answers true exactly when the first line of the
    text, trimmed, is three runs of digits separated by tabs, and the line
    after it, trimmed, is [ROADMAP ] and digits. *)
Theorem Roadmaps_sniff_prefix_iff (file_prefix : FilePrefix) :
  Roadmaps_sniff_prefix file_prefix = true <->
  exists l rest,
    readlines (string_io file_prefix) = l :: rest
    /\ roadmap_header (strip l)
    /\ roadmap_line (strip (hd [] rest)).
Proof. apply Roadmaps_for_true_iff. Qed.

(** X2: a text whose first line is blank is no roadmap for the sniffer,
    whatever follows. *)
Theorem Roadmaps_rejects_blank_first_line
    (file_prefix : FilePrefix) (l : text) (rest : list text) :
  readlines (string_io file_prefix) = l :: rest ->
  blank l ->
  Roadmaps_sniff_prefix file_prefix = false.
Proof.
  intros E B. unfold Roadmaps_sniff_prefix, Roadmaps_for. rewrite E.
  apply blank_iff in B. cbv zeta. now rewrite B.
Qed.

Lemma roadmap_header_digit (line : text) :
  roadmap_header line -> exists c t, line = c :: t /\ isdecimal c = true.
Proof.
  intros (a & b & c & -> & [Ha Hd] & _). destruct a as [|x a]; [congruence|].
  exists x, (a ++ [TAB] ++ b ++ [TAB] ++ c). split; [reflexivity|].
  now inversion Hd.
Qed.

(** X3: no text is both an indexed FASTA file and a roadmap for the
    sniffers. *)
Theorem Sequences_Roadmaps_exclusive (file_prefix : FilePrefix) :
  Sequences_sniff_prefix file_prefix = true ->
  Roadmaps_sniff_prefix file_prefix = false.
Proof.
  intro HS. apply not_true_is_false. intro HR.
  apply Sequences_for_true_iff in HS
    as (blanks & l & rest & E & Hb & Hn & (name & idx & cat & Hl & _) & _).
  apply Roadmaps_for_true_iff in HR as (l' & rest' & E' & Hh & _).
  apply roadmap_header_digit in Hh as (c & t & Hc & Hd).
  rewrite E in E'. destruct blanks as [|b blanks]; simpl in E'.
  - injection E' as <- _. rewrite Hl in Hc. injection Hc as <- _. discriminate Hd.
  - injection E' as <- _. inversion Hb as [|? ? B _]. subst.
    unfold blank in B. rewrite B in Hc. discriminate.
Qed.

(** X4: once the Amos sniffer accepts the lines read so far, it accepts
    them followed by any further lines. *)
Theorem Amos_accepts_longer_prefix (file_prefix longer : FilePrefix) (more : list text) :
  line_iterator longer = line_iterator file_prefix ++ more ->
  Amos_sniff_prefix file_prefix = true ->
  Amos_sniff_prefix longer = true.
Proof.
  unfold Amos_sniff_prefix. intros ->.
  induction (line_iterator file_prefix) as [|x lines IH]; [discriminate|].
  simpl app. rewrite !Amos_for_cons.
  destruct (nonempty x); [|discriminate]. simpl.
  destruct (Amos_tokenb (strip x)); [reflexivity|]. simpl. exact IH.
Qed.

(** X5: an empty string from the iterator ends the scan of the Amos
    sniffer: the lines after it are not looked at. *)
Theorem Amos_stops_at_empty_line
    (file_prefix cut : FilePrefix) (before after : list text) :
  line_iterator file_prefix = before ++ [] :: after ->
  line_iterator cut = before ->
  Amos_sniff_prefix file_prefix = Amos_sniff_prefix cut.
Proof.
  unfold Amos_sniff_prefix. intros -> ->.
  induction before as [|x before IH]; [reflexivity|].
  simpl app. rewrite !Amos_for_cons. now rewrite IH.
Qed.

Lemma readlines_nonempty (c : char) (t : text) : readlines (c :: t) <> [].
Proof.
  simpl. destruct (char_eqb c LF); [discriminate|].
  destruct (readlines t); discriminate.
Qed.

(** A text that ends with a newline is read line by line before what is
    appended to it. *)
Lemma readlines_app (a b : text) :
  readlines (a ++ LF :: b) = readlines (a ++ [LF]) ++ readlines b.
Proof.
  induction a as [|c a IH]; [reflexivity|].
  simpl app. simpl readlines. destruct (char_eqb c LF).
  - now rewrite IH.
  - rewrite IH. destruct (readlines (a ++ [LF])) as [|l ls] eqn:E.
    + exfalso. destruct a; simpl in E.
      * discriminate.
      * now apply readlines_nonempty in E.
    + reflexivity.
Qed.

Lemma Sequences_for_app (fh more : list text) :
  Sequences_for fh = true -> Sequences_for (fh ++ more) = true.
Proof.
  intro H. apply Sequences_for_true_iff in H
    as (blanks & l & rest & -> & Hb & Hn & Hh & Hne & Hs).
  apply Sequences_for_true_iff. exists blanks, l, (rest ++ more).
  rewrite <- app_assoc. simpl.
  destruct rest as [|r rest]; [now contradiction Hne|]. now repeat split.
Qed.

Lemma Roadmaps_for_app (fh more : list text) :
  Roadmaps_for fh = true -> Roadmaps_for (fh ++ more) = true.
Proof.
  intro H. apply Roadmaps_for_true_iff in H as (l & rest & -> & Hh & Hl).
  apply Roadmaps_for_true_iff. exists l, (rest ++ more). simpl.
  destruct rest as [|r rest]; [|now repeat split].
  destruct Hl as (n & E & _). discriminate E.
Qed.

(** X6: when the text read so far ends with a newline and is accepted by
    the Sequences or the Roadmaps sniffer, so is any longer text that starts
    with it. *)
Theorem sniffers_accept_longer_text (file_prefix longer : FilePrefix) (t more : text) :
  string_io file_prefix = t ++ [LF] ->
  string_io longer = t ++ LF :: more ->
  (Sequences_sniff_prefix file_prefix = true -> Sequences_sniff_prefix longer = true)
  /\ (Roadmaps_sniff_prefix file_prefix = true -> Roadmaps_sniff_prefix longer = true).
Proof.
  unfold Sequences_sniff_prefix, Roadmaps_sniff_prefix. intros -> ->.
  rewrite (readlines_app t more). split; intro H.
  - now apply Sequences_for_app.
  - now apply Roadmaps_for_app.
Qed.

(** X7: the Sequences and Roadmaps sniffers see a line only through its
    trimmed form: two texts whose lines trim to the same texts get the same
    answers. *)
Theorem sniffers_see_trimmed_lines (file_prefix file_prefix' : FilePrefix) :
  map strip (readlines (string_io file_prefix))
  = map strip (readlines (string_io file_prefix')) ->
  Sequences_sniff_prefix file_prefix = Sequences_sniff_prefix file_prefix'
  /\ Roadmaps_sniff_prefix file_prefix = Roadmaps_sniff_prefix file_prefix'.
Proof.
  unfold Sequences_sniff_prefix, Roadmaps_sniff_prefix.
  generalize (readlines (string_io file_prefix)) as fh.
  generalize (readlines (string_io file_prefix')) as fh'.
  assert (Hhd : forall a b : list text,
             map strip a = map strip b -> strip (hd [] a) = strip (hd [] b)).
  { intros [|x a] [|y b] E; try discriminate; [reflexivity|].
    now injection E. }
  intros fh' fh E. split.
  - revert fh' E. induction fh as [|x fh IH]; intros [|y fh'] E; try discriminate;
      [reflexivity|].
    injection E as Ex E. rewrite !Sequences_for_cons, !readline_hd.
    rewrite Ex, (Hhd _ _ E), (IH _ E). reflexivity.
  - destruct fh as [|x fh], fh' as [|y fh']; try discriminate; [reflexivity|].
    injection E as Ex E. unfold Roadmaps_for. rewrite !readline_hd.
    cbv zeta. now rewrite Ex, (Hhd _ _ E).
Qed.

(** ** More on the flags and the summary *)

(** X8: [-longPaired] in the cleaned log sets both [paired_end_reads] and
    [long_reads], since [-long] is found inside it; [-shortPaired2] sets
    both [paired_end_reads] and [short2_reads]. *)
Theorem log_flags_overlap (log_msg : text) :
  (contains log_msg (py "-longPaired") ->
   log_paired_end_reads log_msg = true /\ log_long_reads log_msg = true)
  /\ (contains log_msg (py "-shortPaired2") ->
      log_paired_end_reads log_msg = true /\ log_short2_reads log_msg = true).
Proof.
  split; intros (a & b & ->).
  - split.
    + apply log_paired_end_reads_iff. right. now exists a, b.
    + apply log_long_reads_iff. exists a, (py "Paired" ++ b). reflexivity.
  - split.
    + apply log_paired_end_reads_iff. left. exists a, (py "2" ++ b). reflexivity.
    + apply log_short2_reads_iff. right. now exists a, b.
Qed.

Lemma sub_from_Forall (P : char -> Prop) (r : regex) (repl : text) :
  Forall P repl ->
  forall (s : text) (skip : nat), Forall P s -> Forall P (sub_from r repl skip s).
Proof.
  intros Hr s. induction s as [|c s IH]; intros skip Hs; simpl; [constructor|].
  inversion Hs as [|? ? Hc Hs']; subst.
  destruct skip as [|n]; [|now apply IH].
  destruct (match_len r (c :: s)) as [[|n]|].
  - constructor; [assumption | now apply IH].
  - apply Forall_app. split; [assumption | now apply IH].
  - constructor; [assumption | now apply IH].
Qed.

Lemma match_len_newline (c : char) (t : text) :
  match_len newline_re (c :: t) = if char_eqb c LF then Some 1%nat else None.
Proof.
  unfold match_len, match_at, newline_re. cbn [bt].
  destruct (char_eqb c LF); [|reflexivity].
  f_equal. cbn [List.length]. lia.
Qed.

(** Replacing [\n] by a space works character by character. *)
Lemma re_sub_newline (t : text) : re_sub newline_re (py " ") t = one_line t.
Proof.
  unfold re_sub. induction t as [|c t IH]; [reflexivity|].
  cbn [sub_from one_line map]. rewrite match_len_newline.
  destruct (char_eqb c LF); rewrite IH; reflexivity.
Qed.

Lemma one_line_no_LF (t : text) : Forall (fun c => c <> LF) (one_line t).
Proof.
  unfold one_line. apply Forall_forall. intros c Hc.
  apply in_map_iff in Hc as (x & <- & _).
  destruct (char_eqb x LF) eqn:E; [discriminate|].
  intro H. subst x. now rewrite char_eqb_refl in E.
Qed.

(** X9: the text stored in [dataset.info] holds no newline. *)
Theorem log_info_one_line (log_msg : text) :
  Forall (fun c => c <> LF) (log_info log_msg).
Proof.
  unfold log_info. rewrite re_sub_newline. apply sub_from_Forall.
  - repeat constructor; discriminate.
  - apply one_line_no_LF.
Qed.

Lemma dot_forallb (t : text) :
  Forall (fun c => c <> LF) t -> forallb dot t = true.
Proof.
  intro H. apply forallb_forall. intros c Hc.
  rewrite Forall_forall in H. specialize (H c Hc). unfold dot.
  destruct (char_eqb c LF) eqn:E; [|reflexivity].
  apply char_eqb_eq in E. contradiction.
Qed.

(** X10: when the cleaned log holds [velveth ] followed by a character
    that is no space, [dataset.info] starts with [hash_length]. *)
Theorem log_info_hash_length (log_msg a b : text) (c : char) :
  log_msg = a ++ py "velveth " ++ c :: b ->
  isspace c = false ->
  exists tail, log_info log_msg = py "hash_length" ++ tail.
Proof.
  intros -> Hc. unfold log_info. rewrite re_sub_newline.
  assert (E : one_line (a ++ py "velveth " ++ c :: b)
              = one_line a ++ py "velveth " ++ c :: one_line b).
  { unfold one_line. rewrite map_app. simpl map. f_equal. do 8 f_equal.
    destruct (char_eqb c LF) eqn:Ec; [|reflexivity].
    apply char_eqb_eq in Ec. subst c. rewrite isspace_LF in Hc. discriminate. }
  rewrite E. clear E.
  assert (M : match_at velveth_re (one_line a ++ py "velveth " ++ c :: one_line b) <> None).
  { apply match_at_some. exists (one_line b).
    exists (py "velveth " ++ c :: one_line b). split.
    - exists (one_line a). split; [reflexivity|]. apply dot_forallb, one_line_no_LF.
    - exists (c :: one_line b). split; [now apply den_Str|].
      exists c, []. repeat split. unfold nonspace. now rewrite Hc. }
  pose proof (@no_empty_match velveth_re
                (one_line a ++ py "velveth " ++ c :: one_line b)) as N.
  unfold re_sub.
  destruct (one_line a ++ py "velveth " ++ c :: one_line b) as [|x s] eqn:Es.
  - destruct (one_line a); discriminate.
  - cbn [sub_from]. unfold match_len in *.
    destruct (match_at velveth_re (x :: s)) as [rest|]; [|congruence].
    destruct (List.length (x :: s) - List.length rest)%nat as [|n] eqn:El.
    + exfalso. apply N; [simpl; auto | reflexivity].
    + now exists (sub_from velveth_re (py "hash_length") n s).
Qed.

(** Where a pattern is found nowhere, substitution changes nothing. *)
Lemma re_sub_not_found (r : regex) (repl t : text) :
  re_search r t = false -> re_sub r repl t = t.
Proof.
  unfold re_sub. induction t as [|c t IH]; [reflexivity|].
  cbn [re_search sub_from]. unfold match_len.
  destruct (match_at r (c :: t)); [discriminate|].
  intro H. now rewrite IH.
Qed.

(** A text without space comes from itself alone. *)
Lemma one_line_inv (w v : text) :
  one_line w = v -> Forall (fun c => c <> SP) v -> w = v.
Proof.
  revert v. induction w as [|x w IH]; intros v E Hv; [exact E|].
  destruct v as [|y v]; [discriminate|]. simpl in E.
  injection E as Ex Ew. inversion Hv as [|? ? Hy Hv']; subst.
  f_equal; [|now apply IH].
  destruct (char_eqb x LF); [contradiction | reflexivity].
Qed.

Lemma one_line_velveth (t a b : text) :
  one_line t = a ++ py "velveth" ++ b -> contains t (py "velveth").
Proof.
  unfold one_line. intro E.
  apply map_eq_app in E as (a' & t1 & -> & _ & E).
  apply map_eq_app in E as (w & b' & -> & Ew & _).
  exists a', b'. f_equal. f_equal.
  apply one_line_inv; [exact Ew|].
  repeat constructor; discriminate.
Qed.

(** X11: when the cleaned log does not hold [velveth], [dataset.info] is
    the cleaned log with its newlines turned into spaces. *)
Theorem log_info_without_velveth (log_msg : text) :
  ~ contains log_msg (py "velveth") ->
  log_info log_msg = one_line log_msg.
Proof.
  intro H. unfold log_info. rewrite re_sub_newline.
  apply re_sub_not_found. apply not_true_is_false. intro S.
  apply re_search_iff in S as (a & b & rest & E & m1 & (u & -> & _) & m2 & H1 & _).
  apply den_Str in H1. subst m1. apply H.
  apply (@one_line_velveth log_msg (a ++ u) (py " " ++ m2)).
  rewrite E, <- app_assoc. reflexivity.
Qed.

(** *** A path is removed whole *)

Lemma star_nonspace_greedy (w : text) :
  forallb nonspace w = true ->
  star_cls nonspace (w ++ py "/") (fun s => bt (Str (py "/")) s (fun rest => Some rest))
  = Some [].
Proof.
  induction w as [|x w IH]; intro H; [reflexivity|].
  simpl in H. apply andb_true_iff in H as [Hx Hw].
  change ((x :: w) ++ py "/") with (x :: (w ++ py "/")).
  cbn [star_cls]. rewrite Hx. now rewrite (IH Hw).
Qed.

Lemma sub_from_skip_all (r : regex) (repl : text) :
  forall (s : text) (skip : nat),
    (List.length s <= skip)%nat -> sub_from r repl skip s = [].
Proof.
  induction s as [|c s IH]; intros skip H; [reflexivity|].
  simpl in H. destruct skip as [|n]; [lia|]. simpl. apply IH. lia.
Qed.

Lemma match_at_path (w : text) :
  forallb nonspace w = true -> match_at path_re (py "/" ++ w ++ py "/") = Some [].
Proof.
  intro H. unfold match_at.
  change (star_cls nonspace (w ++ py "/")
            (fun s => bt (Str (py "/")) s (fun rest => Some rest)) = Some []).
  now apply star_nonspace_greedy.
Qed.

Lemma log_message_path (w : text) :
  forallb nonspace w = true -> log_message (py "/" ++ w ++ py "/") = [].
Proof.
  intro H. unfold log_message, re_sub.
  change (py "/" ++ w ++ py "/") with (47 :: (w ++ py "/")) at 1.
  cbn [sub_from]. unfold match_len.
  change (47 :: (w ++ py "/")) with (py "/" ++ w ++ py "/").
  rewrite (match_at_path w H).
  change (List.length (py "/" ++ w ++ py "/") - List.length (@nil char))%nat
    with (S (List.length (w ++ py "/")) - 0)%nat.
  rewrite Nat.sub_0_r. simpl app. apply sub_from_skip_all. lia.
Qed.

(** X12: a path, that is a slash, characters that are no space and a
    slash, standing between two spaces, is removed whole from the log, so
    that an option spelled inside it is not seen. *)
Theorem log_message_removes_path (a w b : text) :
  forallb nonspace w = true ->
  log_message (a ++ py " /" ++ w ++ py "/ " ++ b)
  = log_message a ++ py "  " ++ log_message b.
Proof.
  intro H.
  change (a ++ py " /" ++ w ++ py "/ " ++ b)
    with (a ++ SP :: (py "/" ++ w ++ (py "/" ++ SP :: b))).
  rewrite log_message_space.
  replace (py "/" ++ w ++ py "/" ++ SP :: b) with ((py "/" ++ w ++ py "/") ++ SP :: b)
    by (now rewrite <- !app_assoc).
  rewrite log_message_space, (log_message_path w H). reflexivity.
Qed.

(** ** More on regenerating the primary file *)


(** *** The cleaned log holds no path *)

Lemma star_nonspace_none (s : text) :
  star_cls nonspace s slash_next = None <-> run_free s = true.
Proof.
  induction s as [|c s IH]; [now split|].
  cbn [star_cls run_free]. unfold nonspace at 1. rewrite slash_next_cons.
  destruct (isspace c) eqn:Hc; cbn [negb].
  - rewrite (isspace_not_slash c Hc). now split.
  - destruct (star_cls nonspace s slash_next) as [a|].
    + split; [discriminate|]. intro H. apply andb_true_iff in H as [_ H].
      apply IH in H. discriminate.
    + destruct (char_eqb c 47); cbn [negb andb].
      * split; discriminate.
      * split; [intros _; now apply IH | reflexivity].
Qed.

Lemma star_nonspace_some (s rest : text) :
  star_cls nonspace s slash_next = Some rest -> run_free rest = true.
Proof.
  induction s as [|c s IH]; [discriminate|].
  cbn [star_cls]. unfold nonspace at 1. rewrite slash_next_cons.
  destruct (isspace c) eqn:Hc; cbn [negb].
  - now rewrite (isspace_not_slash c Hc).
  - destruct (star_cls nonspace s slash_next) as [a|] eqn:Hs.
    + intro E. injection E as ->. now apply IH.
    + destruct (char_eqb c 47); [|discriminate].
      intro E. injection E as <-. now apply star_nonspace_none.
Qed.

Lemma sub_from_skipn (r : regex) (repl : text) :
  forall (s : text) (k : nat),
    sub_from r repl k s = sub_from r repl 0 (skipn k s).
Proof.
  induction s as [|c s IH]; intros [|k]; try reflexivity.
  simpl skipn. cbn [sub_from]. apply IH.
Qed.

Lemma den_suffix (r : regex) : forall s rest, den r s rest -> exists u, s = u ++ rest.
Proof.
  induction r as [|c|p|r1 IH1 r2 IH2|r1 IH1 r2 IH2|r1 IH1|p|p|]; intros s rest; simpl.
  - intros ->. now exists [].
  - intros ->. now exists [c].
  - intros (c & -> & _). now exists [c].
  - intros (mid & H1 & H2). apply IH1 in H1 as (u & ->). apply IH2 in H2 as (v & ->).
    exists (u ++ v). now rewrite <- app_assoc.
  - intros [H | H]; [now apply IH1 | now apply IH2].
  - intros [H | ->]; [now apply IH1 | now exists []].
  - intros (u & -> & _). now exists u.
  - intros (c & u & -> & _). now exists (c :: u).
  - intros (-> & _). now exists [].
Qed.

(** After a match the search resumes on what the match left. *)
Lemma sub_from_match (r : regex) (repl s rest : text) (c : char) (k : nat) :
  match_at r (c :: s) = Some rest ->
  (List.length (c :: s) - List.length rest = S k)%nat ->
  sub_from r repl k s = sub_from r repl 0 rest.
Proof.
  intros Hm Hk. rewrite sub_from_skipn. f_equal.
  apply match_at_sound, den_suffix in Hm as (u & E).
  destruct u as [|x u]; simpl in E.
  - subst rest. simpl in Hk. lia.
  - injection E as -> ->. cbn [List.length] in Hk. rewrite length_app in Hk.
    assert (k = List.length u) as -> by lia.
    rewrite skipn_app, skipn_all, Nat.sub_diag. reflexivity.
Qed.

Lemma log_message_clean_aux (n : nat) :
  forall s : text,
    (List.length s <= n)%nat ->
    re_search path_re (sub_from path_re [] 0 s) = false
    /\ (run_free s = true -> run_free (sub_from path_re [] 0 s) = true).
Proof.
  induction n as [|n IH]; intros s Hn.
  - destruct s; [now split | simpl in Hn; lia].
  - destruct s as [|c s]; [now split|].
    simpl in Hn. cbn [sub_from]. unfold match_len.
    destruct (match_at path_re (c :: s)) as [rest|] eqn:Hm.
    + destruct (List.length (c :: s) - List.length rest)%nat as [|k] eqn:Hk.
      * exfalso. apply (@no_empty_match path_re (c :: s)); [simpl; auto|].
        unfold match_len. now rewrite Hm, Hk.
      * rewrite (@sub_from_match path_re [] s rest c k Hm Hk). simpl app.
        rewrite match_at_path_cons in Hm.
        destruct (char_eqb c 47) eqn:Hc; [|discriminate].
        assert (Hl : (List.length rest <= n)%nat) by (cbn [List.length] in Hk; lia).
        destruct (IH rest Hl) as [H1 H2]. split; [exact H1|].
        cbn [run_free]. rewrite Hc. destruct (isspace c); [|discriminate].
        intros _. apply H2. now apply star_nonspace_some in Hm.
    + destruct (IH s) as [H1 H2]; [lia|].
      rewrite match_at_path_cons in Hm. split.
      * cbn [re_search]. rewrite match_at_path_cons.
        destruct (char_eqb c 47); [|exact H1].
        apply star_nonspace_none in Hm. apply H2 in Hm.
        apply star_nonspace_none in Hm. now rewrite Hm.
      * cbn [run_free]. destruct (isspace c); [reflexivity|].
        intro H. apply andb_true_iff in H as [Hc H]. now rewrite Hc, (H2 H).
Qed.

(** X19: the cleaned log holds no path any more, so that cleaning it again
    changes nothing. *)
Theorem log_message_clean (log_content : text) :
  re_search path_re (log_message log_content) = false
  /\ log_message (log_message log_content) = log_message log_content.
Proof.
  assert (H : re_search path_re (log_message log_content) = false).
  { apply (log_message_clean_aux (n := List.length log_content)). lia. }
  split; [exact H|]. now apply re_sub_not_found.
Qed.

(** ** The cleaning of the log is the one specified *)

Lemma star_nonspace_word (w : text) :
  forallb nonspace w = true ->
  star_cls nonspace w slash_next = after_last_slash w.
Proof.
  induction w as [|c w IH]; intro H; [reflexivity|].
  simpl in H. apply andb_true_iff in H as [Hc Hw].
  cbn [star_cls after_last_slash]. rewrite Hc, (IH Hw), slash_next_cons.
  reflexivity.
Qed.

Lemma log_message_no_slash (w : text) : no_slash w = true -> log_message w = w.
Proof.
  unfold log_message, re_sub. induction w as [|c w IH]; intro H; [reflexivity|].
  simpl in H. apply andb_true_iff in H as [Hc Hw].
  cbn [sub_from]. unfold match_len. rewrite match_at_path_cons.
  apply negb_true_iff in Hc. rewrite Hc. now rewrite (IH Hw).
Qed.

Lemma after_last_slash_none (w : text) :
  after_last_slash w = None -> no_slash w = true.
Proof.
  induction w as [|c w IH]; [reflexivity|]. cbn [after_last_slash].
  destruct (after_last_slash w); [discriminate|].
  destruct (char_eqb c 47) eqn:Hc; [discriminate|].
  intros _. unfold no_slash. simpl. rewrite Hc. now apply IH.
Qed.

Lemma after_last_slash_some (w post : text) :
  after_last_slash w = Some post ->
  no_slash post = true /\ (List.length post < List.length w)%nat.
Proof.
  revert post. induction w as [|c w IH]; intro post; [discriminate|].
  cbn [after_last_slash]. destruct (after_last_slash w) as [p|] eqn:Hw.
  - intro E. injection E as <-. destruct (IH p eq_refl) as [H1 H2].
    split; [exact H1 | simpl; lia].
  - destruct (char_eqb c 47); [|discriminate].
    intro E. injection E as <-. split; [now apply after_last_slash_none | simpl; lia].
Qed.

(** On a run without space the substitution removes its path. *)
Lemma log_message_word (w : text) :
  forallb nonspace w = true -> log_message w = strip_segments w.
Proof.
  induction w as [|c w IH]; intro H; [reflexivity|].
  simpl in H. apply andb_true_iff in H as [Hc Hw].
  unfold log_message, re_sub in *. cbn [sub_from strip_segments]. unfold match_len.
  destruct (char_eqb c 47) eqn:Hs.
  - pose proof (match_at_path_cons c w) as M. rewrite Hs in M.
    rewrite (star_nonspace_word w Hw) in M. rewrite M.
    destruct (after_last_slash w) as [post|] eqn:Hp.
    + apply after_last_slash_some in Hp as [Hn Hl].
      destruct (List.length (c :: w) - List.length post)%nat as [|k] eqn:Hk;
        [cbn [List.length] in Hk; lia|].
      simpl app. rewrite (@sub_from_match path_re [] w post c k M Hk).
      now apply log_message_no_slash.
    + apply after_last_slash_none in Hp. f_equal. now apply log_message_no_slash.
  - rewrite match_at_path_cons, Hs. now rewrite (IH Hw).
Qed.

Lemma log_message_space_head (c : char) (t : text) :
  isspace c = true -> log_message (c :: t) = c :: log_message t.
Proof. intro Hc. exact (@log_message_at_space c [] t Hc). Qed.

Lemma strip_paths_word_spec (t : text) :
  forallb nonspace (fst (strip_paths_word t)) = true
  /\ exists rest,
       t = fst (strip_paths_word t) ++ rest
       /\ snd (strip_paths_word t) = log_message rest
       /\ (rest = [] \/ exists x rest', rest = x :: rest' /\ isspace x = true).
Proof.
  induction t as [|c t (Hw & rest & Et & Eo & Hr)].
  - split; [reflexivity|]. exists []. repeat split. now left.
  - cbn [strip_paths_word].
    destruct (strip_paths_word t) as [w out] eqn:E. simpl fst in *. simpl snd in *.
    destruct (isspace c) eqn:Hc; simpl fst; simpl snd.
    + split; [reflexivity|]. exists (c :: t). split; [reflexivity|].
      split; [|right; now exists c, t].
      rewrite (@log_message_space_head c t Hc). f_equal.
      rewrite <- (log_message_word w Hw), Eo, Et.
      destruct Hr as [-> | (x & rest' & -> & Hx)].
      * now rewrite !app_nil_r.
      * now rewrite (@log_message_at_space x w rest' Hx),
          (@log_message_space_head x rest' Hx).
    + split; [simpl; unfold nonspace at 1; now rewrite Hc, Hw|].
      exists rest. split; [now rewrite Et|]. split; [exact Eo | exact Hr].
Qed.

(** The substitution of [/\S*/] by nothing strips the paths as specified. *)
Lemma log_message_strip_paths (t : text) : log_message t = strip_paths t.
Proof.
  unfold strip_paths.
  destruct (strip_paths_word_spec t) as (Hw & rest & Et & Eo & Hr).
  destruct (strip_paths_word t) as [w out]. simpl in *.
  rewrite <- (log_message_word w Hw), Eo. rewrite Et at 1.
  destruct Hr as [-> | (x & rest' & -> & Hx)].
  - now rewrite !app_nil_r.
  - now rewrite (@log_message_at_space x w rest' Hx),
      (@log_message_space_head x rest' Hx).
Qed.

(** An option inside a path is stripped with it. *)
Lemma strip_paths_example :
  strip_paths (py "velveth /tmp/-long/ 31") = py "velveth  31".
Proof. reflexivity. Qed.

(** ** What regenerating does *)

(** With a readable log the [try] runs to its end. *)
Lemma regenerate_try_readable
    (files : fs) (dataset : DatasetInstance) (efp log_content : text) :
  extra_files_path dataset = Some efp ->
  open_r files (os_path_join efp (py "Log")) = Ok (Readable log_content) ->
  let log_msg := log_message (firstn 1000 log_content) in
  regenerate_try files dataset
  = Ok ({| extra_files_path := extra_files_path dataset;
           file_name := file_name dataset;
           metadata := {| paired_end_reads := PyBool (log_paired_end_reads log_msg);
                          long_reads := PyBool (log_long_reads log_msg);
                          short2_reads := PyBool (log_short2_reads log_msg) |};
           info := PyStr (log_info log_msg) |},
        caption (log_paired_end_reads log_msg) (log_long_reads log_msg)).
Proof.
  intros Hefp Hlog. unfold regenerate_try, get_extra_files_path.
  rewrite Hefp. cbn [bind]. rewrite Hlog. reflexivity.
Qed.

(** Without a log that can be read the [try] fails and the handler
    runs. *)
Lemma regenerate_flags_no_log (files : fs) (dataset : DatasetInstance) (efp : text) :
  extra_files_path dataset = Some efp ->
  (forall log_content,
      open_r files (os_path_join efp (py "Log")) <> Ok (Readable log_content)) ->
  regenerate_flags files dataset = Ok (dataset, []).
Proof.
  intros Hefp Hlog.
  unfold regenerate_flags, regenerate_try, get_extra_files_path.
  rewrite Hefp. cbn [bind].
  destruct (open_r files (os_path_join efp (py "Log"))) as [[c|]|e] eqn:E;
    try reflexivity.
  now contradiction (Hlog c).
Qed.




Lemma fs_write_same (files : fs) (f : node) (content : text) :
  stored (fs_write files f content) f = Some content.
Proof. simpl. now rewrite Nat.eqb_refl. Qed.

Lemma fs_write_other (files : fs) (f n : node) (content : text) :
  n <> f -> stored (fs_write files f content) n = stored files n.
Proof. intro H. simpl. now rewrite (proj2 (Nat.eqb_neq n f) H). Qed.

(** How the call ends once the flags are derived. *)
Lemma regenerate_primary_file_after_flags
    (self : odict) (files : fs) (dataset dataset' : DatasetInstance) (gen_msg : text) :
  regenerate_flags files dataset = Ok (dataset', gen_msg) ->
  regenerate_primary_file self files dataset
  = match open_w files (file_name dataset') with
    | Ok f => {| files_after := fs_write files f (regenerate_page self gen_msg);
                 dataset_after := dataset';
                 ended := Returned |}
    | Raise e => {| files_after := files; dataset_after := dataset'; ended := Raised e |}
    end.
Proof.
  intro H. unfold regenerate_primary_file. rewrite H.
  now destruct (open_w files (file_name dataset')).
Qed.

(** C4: with a readable log, of which the first 1000 characters are read
    and stripped of their path-like fragments, [paired_end_reads] is set to
    true exactly when the stripped text contains [-shortPaired] or
    [-longPaired], [long_reads] exactly when it contains [-long],
    [short2_reads] exactly when it contains [-short2] or [-shortPaired2]; a
    log text that contains [velveth -shortPaired2 -long /some/path/x] sets
    all three to true. *)
Theorem regenerate_sets_flags_from_log
    (self : odict) (files : fs) (dataset : DatasetInstance) (efp log_content : text) :
  extra_files_path dataset = Some efp ->
  open_r files (os_path_join efp (py "Log")) = Ok (Readable log_content) ->
  let log_text := firstn 1000 log_content in
  let cleaned := strip_paths log_text in
  exists paired long short2,
    metadata (dataset_after (regenerate_primary_file self files dataset))
    = {| paired_end_reads := PyBool paired;
         long_reads := PyBool long;
         short2_reads := PyBool short2 |}
    /\ (paired = true <->
        contains cleaned (py "-shortPaired") \/ contains cleaned (py "-longPaired"))
    /\ (long = true <-> contains cleaned (py "-long"))
    /\ (short2 = true <->
        contains cleaned (py "-short2") \/ contains cleaned (py "-shortPaired2"))
    /\ (contains log_text (py "velveth -shortPaired2 -long /some/path/x") ->
        paired = true /\ long = true /\ short2 = true).
Proof.
  intros Hefp Hlog log_text cleaned.
  assert (F : regenerate_flags files dataset
              = Ok ({| extra_files_path := extra_files_path dataset;
                       file_name := file_name dataset;
                       metadata :=
                         {| paired_end_reads := PyBool (log_paired_end_reads cleaned);
                            long_reads := PyBool (log_long_reads cleaned);
                            short2_reads := PyBool (log_short2_reads cleaned) |};
                       info := PyStr (log_info cleaned) |},
                    caption (log_paired_end_reads cleaned) (log_long_reads cleaned))).
  { unfold regenerate_flags. rewrite (regenerate_try_readable _ _ Hefp Hlog).
    fold log_text. rewrite (log_message_strip_paths log_text). reflexivity. }
  rewrite (regenerate_primary_file_after_flags self _ _ F).
  exists (log_paired_end_reads cleaned), (log_long_reads cleaned),
    (log_short2_reads cleaned).
  split; [now destruct (open_w files _)|].
  split; [apply log_paired_end_reads_iff|].
  split; [apply log_long_reads_iff|].
  split; [apply log_short2_reads_iff|].
  intros (a & b & E). unfold cleaned. rewrite <- (log_message_strip_paths log_text), E.
  destruct (log_message_example a b) as (a' & b' & ->).
  split; [|split].
  - apply log_paired_end_reads_iff. left.
    exists (a' ++ py " "), (py "2 -long " ++ b').
    rewrite <- !app_assoc. reflexivity.
  - apply log_long_reads_iff.
    exists (a' ++ py " -shortPaired2 "), (py " " ++ b').
    rewrite <- !app_assoc. reflexivity.
  - apply log_short2_reads_iff. right.
    exists (a' ++ py " "), (py " -long " ++ b').
    rewrite <- !app_assoc. reflexivity.
Qed.

(** C5, as the code has it: when the extra files path can be read and the
    Log file is absent or cannot be read, the derivation of the flags
    propagates no error and its caption is empty; it assigns neither the
    three flags nor [info], and the dataset is after the call what it was
    before. *)
Theorem regenerate_without_log_keeps_dataset
    (self : odict) (files : fs) (dataset : DatasetInstance) (efp : text) :
  extra_files_path dataset = Some efp ->
  (forall log_content,
      open_r files (os_path_join efp (py "Log")) <> Ok (Readable log_content)) ->
  regenerate_flags files dataset = Ok (dataset, [])
  /\ dataset_after (regenerate_primary_file self files dataset) = dataset.
Proof.
  intros Hefp Hlog.
  pose proof (regenerate_flags_no_log _ _ Hefp Hlog) as F.
  split; [exact F|].
  rewrite (regenerate_primary_file_after_flags self _ _ F).
  now destruct (open_w files (file_name dataset)).
Qed.


(** C8: the flags and the summary depend on the log text alone: two runs
    that read the same log text, whatever the datasets and the other files,
    assign the same three flags and the same [info], and where both can
    write their page they return with the same page and the same
    caption. *)
Theorem regenerate_flags_deterministic
    (self : odict) (files1 files2 : fs) (dataset1 dataset2 : DatasetInstance)
    (efp1 efp2 log_content : text) :
  extra_files_path dataset1 = Some efp1 ->
  open_r files1 (os_path_join efp1 (py "Log")) = Ok (Readable log_content) ->
  extra_files_path dataset2 = Some efp2 ->
  open_r files2 (os_path_join efp2 (py "Log")) = Ok (Readable log_content) ->
  let after1 := regenerate_primary_file self files1 dataset1 in
  let after2 := regenerate_primary_file self files2 dataset2 in
  metadata (dataset_after after1) = metadata (dataset_after after2)
  /\ info (dataset_after after1) = info (dataset_after after2)
  /\ forall f1 f2,
       open_w files1 (file_name dataset1) = Ok f1 ->
       open_w files2 (file_name dataset2) = Ok f2 ->
       ended after1 = Returned /\ ended after2 = Returned
       /\ stored (files_after after1) f1 = stored (files_after after2) f2
       /\ exists page, stored (files_after after1) f1 = Some page.
Proof.
  intros Hefp1 Hlog1 Hefp2 Hlog2 after1 after2. subst after1 after2.
  assert (F1 := regenerate_try_readable _ _ Hefp1 Hlog1).
  assert (F2 := regenerate_try_readable _ _ Hefp2 Hlog2).
  unfold regenerate_primary_file, regenerate_flags. rewrite F1, F2. cbn [file_name].
  split; [|split].
  - now destruct (open_w files1 _), (open_w files2 _).
  - now destruct (open_w files1 _), (open_w files2 _).
  - intros f1 f2 -> ->. cbn [ended files_after].
    rewrite !fs_write_same. repeat split. now eexists.
Qed.

(** ** More on what regenerating does *)

(** The two ways the flags are derived once the property is read. *)
Lemma regenerate_flags_cases (files : fs) (dataset : DatasetInstance) (efp : text) :
  extra_files_path dataset = Some efp ->
  (exists log_content,
      open_r files (os_path_join efp (py "Log")) = Ok (Readable log_content)
      /\ let log_msg := log_message (firstn 1000 log_content) in
         regenerate_flags files dataset
         = Ok ({| extra_files_path := extra_files_path dataset;
                  file_name := file_name dataset;
                  metadata := {| paired_end_reads := PyBool (log_paired_end_reads log_msg);
                                 long_reads := PyBool (log_long_reads log_msg);
                                 short2_reads := PyBool (log_short2_reads log_msg) |};
                  info := PyStr (log_info log_msg) |},
               caption (log_paired_end_reads log_msg) (log_long_reads log_msg)))
  \/ ((forall log_content,
          open_r files (os_path_join efp (py "Log")) <> Ok (Readable log_content))
      /\ regenerate_flags files dataset = Ok (dataset, [])).
Proof.
  intro Hefp.
  destruct (open_r files (os_path_join efp (py "Log"))) as [[c|]|e] eqn:E.
  - left. exists c. split; [reflexivity|].
    unfold regenerate_flags. now rewrite (regenerate_try_readable _ _ Hefp E).
  - right. assert (H : forall c, Ok Unreadable <> Ok (Readable c)) by discriminate.
    split; [exact H|]. apply (regenerate_flags_no_log _ _ Hefp). now rewrite E.
  - right. assert (H : forall c, @Raise file e <> Ok (Readable c)) by discriminate.
    split; [exact H|]. apply (regenerate_flags_no_log _ _ Hefp). now rewrite E.
Qed.



Lemma open_r_fs_write (files : fs) (f : node) (content path : text) :
  resolve files path <> Some f ->
  open_r (fs_write files f content) path = open_r files path.
Proof.
  intro H. unfold open_r. cbn [resolve readable fs_write].
  destruct (resolve files path) as [n|]; [|reflexivity].
  rewrite fs_write_other; [reflexivity|]. intro E. apply H. now subst.
Qed.

Lemma open_w_fs_write (files : fs) (f : node) (content path : text) :
  open_w (fs_write files f content) path = open_w files path.
Proof. reflexivity. Qed.

(** X15: unless the dataset's file is the Log file itself, under whatever
    spelling of its path, regenerating again after a run that returned
    changes nothing: the second run returns, with the same dataset and the
    same text in every file. *)
Theorem regenerate_twice
    (self : odict) (files : fs) (dataset : DatasetInstance) (efp : text) :
  extra_files_path dataset = Some efp ->
  resolve files (file_name dataset) <> resolve files (os_path_join efp (py "Log")) ->
  let after1 := regenerate_primary_file self files dataset in
  ended after1 = Returned ->
  let after2 := regenerate_primary_file self (files_after after1) (dataset_after after1) in
  ended after2 = Returned
  /\ dataset_after after2 = dataset_after after1
  /\ forall n, stored (files_after after2) n = stored (files_after after1) n.
Proof.
  intros Hefp Hne after1 Hret after2. subst after2 after1.
  assert (Hw : forall f page n,
             stored (fs_write (fs_write files f page) f page) n
             = stored (fs_write files f page) n).
  { intros f page n. simpl. now destruct (Nat.eqb n f). }
  destruct (regenerate_flags_cases files dataset Hefp) as [(c & Hlog & F) | (Hlog & F)];
    rewrite (regenerate_primary_file_after_flags self _ _ F) in *;
    cbn [file_name] in *;
    destruct (open_w files (file_name dataset)) as [f|e'] eqn:Ew; try discriminate;
    cbn [files_after dataset_after ended].
  - set (page := regenerate_page self _).
    set (d' := {| extra_files_path := extra_files_path dataset |}).
    assert (Hf : resolve files (file_name dataset) = Some f).
    { unfold open_w in Ew. destruct (resolve files (file_name dataset)); [|discriminate].
      destruct (writable files n); [now injection Ew as -> | discriminate]. }
    assert (Hlog' : open_r (fs_write files f page) (os_path_join efp (py "Log"))
                    = Ok (Readable c)).
    { rewrite open_r_fs_write; [exact Hlog|]. rewrite <- Hf. intro E. now apply Hne. }
    assert (Hefp' : extra_files_path d' = Some efp) by exact Hefp.
    assert (F' := regenerate_try_readable _ _ Hefp' Hlog').
    unfold regenerate_primary_file, regenerate_flags. rewrite F'.
    cbn [file_name d']. rewrite open_w_fs_write, Ew.
    cbn [files_after dataset_after ended]. repeat split. intro n. apply Hw.
  - assert (Hf : resolve files (file_name dataset) = Some f).
    { unfold open_w in Ew. destruct (resolve files (file_name dataset)); [|discriminate].
      destruct (writable files n); [now injection Ew as -> | discriminate]. }
    assert (F' : regenerate_flags (fs_write files f (regenerate_page self [])) dataset
                 = Ok (dataset, [])).
    { apply (regenerate_flags_no_log _ _ Hefp). intro c.
      rewrite open_r_fs_write; [apply Hlog|]. rewrite <- Hf. intro E. now apply Hne. }
    rewrite (regenerate_primary_file_after_flags self _ _ F').
    rewrite open_w_fs_write, Ew.
    cbn [files_after dataset_after ended]. repeat split. intro n. apply Hw.
Qed.

(** X16: of the Log file only the first 1000 characters count: two logs
    that agree on them leave the same dataset, and the same page where the
    page can be written. *)
Theorem regenerate_reads_1000_characters
    (self : odict) (files1 files2 : fs) (dataset : DatasetInstance)
    (efp log1 log2 : text) :
  extra_files_path dataset = Some efp ->
  open_r files1 (os_path_join efp (py "Log")) = Ok (Readable log1) ->
  open_r files2 (os_path_join efp (py "Log")) = Ok (Readable log2) ->
  firstn 1000 log1 = firstn 1000 log2 ->
  let after1 := regenerate_primary_file self files1 dataset in
  let after2 := regenerate_primary_file self files2 dataset in
  dataset_after after1 = dataset_after after2
  /\ forall f1 f2,
       open_w files1 (file_name dataset) = Ok f1 ->
       open_w files2 (file_name dataset) = Ok f2 ->
       ended after1 = Returned /\ ended after2 = Returned
       /\ stored (files_after after1) f1 = stored (files_after after2) f2
       /\ exists page, stored (files_after after1) f1 = Some page.
Proof.
  intros Hefp H1 H2 E after1 after2. subst after1 after2.
  assert (F1 := regenerate_try_readable _ _ Hefp H1).
  assert (F2 := regenerate_try_readable _ _ Hefp H2).
  cbv zeta in F1, F2. rewrite E in F1.
  unfold regenerate_primary_file, regenerate_flags. rewrite F1, F2. cbn [file_name].
  split.
  - now destruct (open_w files1 _), (open_w files2 _).
  - intros f1 f2 -> ->. cbn [ended files_after].
    rewrite !fs_write_same. repeat split. now eexists.
Qed.


End Unicode.

(** ** The theorems at the example data *)

Lemma Amos_scans_past_mismatch_witness :
  line_iterator example_prefix = [py "{FOO\n"] ++ py "{RED\n" :: []
  /\ Forall (fun x : text => x <> []) [py "{FOO\n"]
  /\ Amos_token (strip ascii_only (py "{RED\n"))
  /\ Amos_sniff_prefix ascii_only example_prefix = true.
Proof.
  assert (H1 : line_iterator example_prefix = [py "{FOO\n"] ++ py "{RED\n" :: [])
    by reflexivity.
  assert (H2 : Forall (fun x : text => x <> []) [py "{FOO\n"])
    by (repeat constructor; discriminate).
  assert (H3 : Amos_token (strip ascii_only (py "{RED\n")))
    by (left; reflexivity).
  split; [exact H1|]. split; [exact H2|]. split; [exact H3|].
  exact (Amos_scans_past_mismatch ascii_only example_prefix _ _ H1 H2 H3).
Defined.

Lemma sniffers_reject_empty_input_witness :
  line_iterator empty_prefix = []
  /\ string_io empty_prefix = []
  /\ Amos_sniff_prefix ascii_only empty_prefix = false
  /\ Sequences_sniff_prefix ascii_only empty_prefix = false
  /\ Roadmaps_sniff_prefix ascii_only empty_prefix = false.
Proof.
  split; [reflexivity|]. split; [reflexivity|].
  exact (sniffers_reject_empty_input ascii_only empty_prefix eq_refl eq_refl).
Defined.

Lemma Roadmaps_rejects_blank_first_line_witness :
  readlines (string_io blank_first_prefix)
  = py "\n" :: [py "142858\t21\t1\n"; py "ROADMAP 1\n"]
  /\ blank ascii_only (py "\n")
  /\ Roadmaps_sniff_prefix ascii_only blank_first_prefix = false.
Proof.
  split; [reflexivity|]. split; [reflexivity|].
  exact (@Roadmaps_rejects_blank_first_line ascii_only blank_first_prefix
           (py "\n") [py "142858\t21\t1\n"; py "ROADMAP 1\n"] eq_refl eq_refl).
Defined.

Lemma Sequences_Roadmaps_exclusive_witness :
  Sequences_sniff_prefix ascii_only fasta_prefix = true
  /\ Roadmaps_sniff_prefix ascii_only fasta_prefix = false.
Proof.
  split; [reflexivity|].
  exact (@Sequences_Roadmaps_exclusive ascii_only fasta_prefix eq_refl).
Defined.

Lemma Amos_accepts_longer_prefix_witness :
  line_iterator example_prefix_longer = line_iterator example_prefix ++ [py "iid:1\n"]
  /\ Amos_sniff_prefix ascii_only example_prefix = true
  /\ Amos_sniff_prefix ascii_only example_prefix_longer = true.
Proof.
  split; [reflexivity|]. split; [reflexivity|].
  exact (@Amos_accepts_longer_prefix ascii_only example_prefix example_prefix_longer
           [py "iid:1\n"] eq_refl eq_refl).
Defined.

Lemma Amos_stops_at_empty_line_witness :
  line_iterator example_prefix_cut = [py "{FOO\n"] ++ [] :: [py "{RED\n"]
  /\ line_iterator example_prefix_head = [py "{FOO\n"]
  /\ Amos_sniff_prefix ascii_only example_prefix_cut
     = Amos_sniff_prefix ascii_only example_prefix_head.
Proof.
  split; [reflexivity|]. split; [reflexivity|].
  exact (@Amos_stops_at_empty_line ascii_only example_prefix_cut example_prefix_head
           [py "{FOO\n"] [py "{RED\n"] eq_refl eq_refl).
Defined.

Lemma sniffers_accept_longer_text_witness :
  string_io fasta_prefix = py ">seq1\t1\t1\nACGT" ++ [LF]
  /\ string_io fasta_prefix_longer = py ">seq1\t1\t1\nACGT" ++ LF :: py ">seq2\t2\t1\n"
  /\ (Sequences_sniff_prefix ascii_only fasta_prefix = true ->
      Sequences_sniff_prefix ascii_only fasta_prefix_longer = true)
  /\ (Roadmaps_sniff_prefix ascii_only fasta_prefix = true ->
      Roadmaps_sniff_prefix ascii_only fasta_prefix_longer = true).
Proof.
  split; [reflexivity|]. split; [reflexivity|].
  exact (@sniffers_accept_longer_text ascii_only fasta_prefix fasta_prefix_longer
           (py ">seq1\t1\t1\nACGT") (py ">seq2\t2\t1\n") eq_refl eq_refl).
Defined.

Lemma sniffers_see_trimmed_lines_witness :
  map (strip ascii_only) (readlines (string_io fasta_prefix_blanks))
  = map (strip ascii_only) (readlines (string_io fasta_prefix))
  /\ Sequences_sniff_prefix ascii_only fasta_prefix_blanks
     = Sequences_sniff_prefix ascii_only fasta_prefix
  /\ Roadmaps_sniff_prefix ascii_only fasta_prefix_blanks
     = Roadmaps_sniff_prefix ascii_only fasta_prefix.
Proof.
  split; [reflexivity|].
  exact (@sniffers_see_trimmed_lines ascii_only fasta_prefix_blanks fasta_prefix eq_refl).
Defined.

Lemma log_info_hash_length_witness :
  py "run: velveth out 31" = py "run: " ++ py "velveth " ++ 111 :: py "ut 31"
  /\ isspace ascii_only 111 = false
  /\ exists tail, log_info ascii_only (py "run: velveth out 31") = py "hash_length" ++ tail.
Proof.
  split; [reflexivity|]. split; [reflexivity|].
  exact (@log_info_hash_length ascii_only (py "run: velveth out 31") (py "run: ")
           (py "ut 31") 111 eq_refl eq_refl).
Defined.

Lemma log_info_without_velveth_witness :
  ~ contains (py "no assembler\nhere") (py "velveth")
  /\ log_info ascii_only (py "no assembler\nhere") = one_line (py "no assembler\nhere").
Proof.
  assert (H : ~ contains (py "no assembler\nhere") (py "velveth")).
  { intro C. apply re_search_Str in C. discriminate C. }
  split; [exact H|].
  exact (@log_info_without_velveth ascii_only (py "no assembler\nhere") H).
Defined.

Lemma log_message_removes_path_witness :
  forallb (nonspace ascii_only) (py "tmp/-long") = true
  /\ log_message ascii_only (py "velveth" ++ py " /" ++ py "tmp/-long" ++ py "/ " ++ py "31")
     = log_message ascii_only (py "velveth") ++ py "  " ++ log_message ascii_only (py "31").
Proof.
  split; [reflexivity|].
  exact (@log_message_removes_path ascii_only (py "velveth") (py "tmp/-long") (py "31")
           eq_refl).
Defined.

(** After [{FOO] the Amos sniffer goes on to the next line and accepts on
    [{RED], where the first non-empty line alone would give false. *)
Lemma Amos_second_line_accepted :
  Amos_sniff_prefix ascii_only example_prefix = true
  /\ Amos_specified ascii_only (line_iterator example_prefix) = false.
Proof. split; reflexivity. Qed.

(** ** Regenerating at the example data *)

Lemma regenerate_sets_flags_from_log_witness :
  extra_files_path example_dataset = Some (py "/data/dataset_1_files")
  /\ open_r example_files (os_path_join (py "/data/dataset_1_files") (py "Log"))
     = Ok (Readable example_log)
  /\ let log_text := firstn 1000 example_log in
     let cleaned := strip_paths ascii_only log_text in
     exists paired long short2,
       metadata (dataset_after
                   (regenerate_primary_file ascii_only Velvet_init example_files
                      example_dataset))
       = {| paired_end_reads := PyBool paired;
            long_reads := PyBool long;
            short2_reads := PyBool short2 |}
       /\ (paired = true <->
           contains cleaned (py "-shortPaired") \/ contains cleaned (py "-longPaired"))
       /\ (long = true <-> contains cleaned (py "-long"))
       /\ (short2 = true <->
           contains cleaned (py "-short2") \/ contains cleaned (py "-shortPaired2"))
       /\ (contains log_text (py "velveth -shortPaired2 -long /some/path/x") ->
           paired = true /\ long = true /\ short2 = true).
Proof.
  split; [reflexivity|]. split; [reflexivity|].
  exact (@regenerate_sets_flags_from_log ascii_only Velvet_init example_files
           example_dataset (py "/data/dataset_1_files") example_log eq_refl eq_refl).
Defined.

Lemma regenerate_without_log_keeps_dataset_witness :
  extra_files_path example_dataset = Some (py "/data/dataset_1_files")
  /\ (forall log_content,
         open_r no_files (os_path_join (py "/data/dataset_1_files") (py "Log"))
         <> Ok (Readable log_content))
  /\ regenerate_flags ascii_only no_files example_dataset = Ok (example_dataset, [])
  /\ dataset_after
       (regenerate_primary_file ascii_only Velvet_init no_files example_dataset)
     = example_dataset.
Proof.
  assert (H : forall log_content,
             open_r no_files (os_path_join (py "/data/dataset_1_files") (py "Log"))
             <> Ok (Readable log_content)) by discriminate.
  split; [reflexivity|]. split; [exact H|].
  exact (@regenerate_without_log_keeps_dataset ascii_only Velvet_init no_files
           example_dataset (py "/data/dataset_1_files") eq_refl H).
Defined.


Lemma regenerate_flags_deterministic_witness :
  extra_files_path example_dataset = Some (py "/data/dataset_1_files")
  /\ open_r example_files (os_path_join (py "/data/dataset_1_files") (py "Log"))
     = Ok (Readable example_log)
  /\ extra_files_path other_dataset = Some (py "/srv/files/")
  /\ open_r other_files (os_path_join (py "/srv/files/") (py "Log"))
     = Ok (Readable example_log)
  /\ let after1 :=
       regenerate_primary_file ascii_only Velvet_init example_files example_dataset in
     let after2 :=
       regenerate_primary_file ascii_only Velvet_init other_files other_dataset in
     metadata (dataset_after after1) = metadata (dataset_after after2)
     /\ info (dataset_after after1) = info (dataset_after after2)
     /\ forall f1 f2,
          open_w example_files (file_name example_dataset) = Ok f1 ->
          open_w other_files (file_name other_dataset) = Ok f2 ->
          ended after1 = Returned /\ ended after2 = Returned
          /\ stored (files_after after1) f1 = stored (files_after after2) f2
          /\ exists page, stored (files_after after1) f1 = Some page.
Proof.
  split; [reflexivity|]. split; [reflexivity|].
  split; [reflexivity|]. split; [reflexivity|].
  exact (@regenerate_flags_deterministic ascii_only Velvet_init example_files other_files
           example_dataset other_dataset (py "/data/dataset_1_files") (py "/srv/files/")
           example_log eq_refl eq_refl eq_refl eq_refl).
Defined.

Lemma regenerate_twice_witness :
  extra_files_path example_dataset = Some (py "/data/dataset_1_files")
  /\ resolve example_files (file_name example_dataset)
     <> resolve example_files (os_path_join (py "/data/dataset_1_files") (py "Log"))
  /\ let after1 :=
       regenerate_primary_file ascii_only Velvet_init example_files example_dataset in
     ended after1 = Returned
     /\ let after2 :=
          regenerate_primary_file ascii_only Velvet_init (files_after after1)
            (dataset_after after1) in
        ended after2 = Returned
        /\ dataset_after after2 = dataset_after after1
        /\ forall n, stored (files_after after2) n = stored (files_after after1) n.
Proof.
  assert (H : resolve example_files (file_name example_dataset)
              <> resolve example_files
                   (os_path_join (py "/data/dataset_1_files") (py "Log")))
    by discriminate.
  split; [reflexivity|]. split; [exact H|]. split; [reflexivity|].
  exact (@regenerate_twice ascii_only Velvet_init example_files example_dataset
           (py "/data/dataset_1_files") eq_refl H eq_refl).
Defined.

Lemma regenerate_reads_1000_characters_witness :
  extra_files_path example_dataset = Some (py "/data/dataset_1_files")
  /\ open_r long_files (os_path_join (py "/data/dataset_1_files") (py "Log"))
     = Ok (Readable long_log)
  /\ open_r long_files' (os_path_join (py "/data/dataset_1_files") (py "Log"))
     = Ok (Readable long_log')
  /\ firstn 1000 long_log = firstn 1000 long_log'
  /\ let after1 :=
       regenerate_primary_file ascii_only Velvet_init long_files example_dataset in
     let after2 :=
       regenerate_primary_file ascii_only Velvet_init long_files' example_dataset in
     dataset_after after1 = dataset_after after2
     /\ forall f1 f2,
          open_w long_files (file_name example_dataset) = Ok f1 ->
          open_w long_files' (file_name example_dataset) = Ok f2 ->
          ended after1 = Returned /\ ended after2 = Returned
          /\ stored (files_after after1) f1 = stored (files_after after2) f2
          /\ exists page, stored (files_after after1) f1 = Some page.
Proof.
  split; [reflexivity|]. split; [reflexivity|]. split; [reflexivity|].
  split; [reflexivity|].
  exact (@regenerate_reads_1000_characters ascii_only Velvet_init long_files long_files'
           example_dataset (py "/data/dataset_1_files") long_log long_log'
           eq_refl eq_refl eq_refl eq_refl).
Defined.


(** With the log gone after a first run, a second run leaves the flags of
    the first run set and its [info] in place; and with the extra files path
    unreadable the derivation of the flags raises. *)
Lemma absent_log_flags_not_reset :
  let after1 :=
    regenerate_primary_file ascii_only Velvet_init example_files example_dataset in
  let after2 :=
    regenerate_primary_file ascii_only Velvet_init no_files (dataset_after after1) in
  open_r no_files (os_path_join (py "/data/dataset_1_files") (py "Log"))
  = Raise FileNotFoundError
  /\ extra_files_path (dataset_after after1) = Some (py "/data/dataset_1_files")
  /\ ended after2 = Returned
  /\ metadata (dataset_after after2)
     = {| paired_end_reads := PyBool true;
          long_reads := PyBool true;
          short2_reads := PyBool true |}
  /\ info (dataset_after after2) = PyStr (py "hash_length -long x ")
  /\ regenerate_flags ascii_only no_files pathless_dataset = Raise UnboundLocalError.
Proof. repeat split. Qed.


(** Where the dataset's file is the Log file under another spelling, the
    page replaces the log, and a second run reads the page and resets the
    flags of the first. *)
Lemma alias_overwrites_log :
  let after1 :=
    regenerate_primary_file ascii_only Velvet_init example_files alias_dataset in
  let after2 :=
    regenerate_primary_file ascii_only Velvet_init (files_after after1)
      (dataset_after after1) in
  file_name alias_dataset <> os_path_join (py "/data/dataset_1_files") (py "Log")
  /\ long_reads (metadata (dataset_after after1)) = PyBool true
  /\ open_r (files_after after1) (os_path_join (py "/data/dataset_1_files") (py "Log"))
     = Ok (Readable (regenerate_page Velvet_init (py "Uses:  Paired-End Reads Long Reads")))
  /\ long_reads (metadata (dataset_after after2)) = PyBool false.
Proof. repeat split. discriminate. Qed.
